(** * The encryption key manager resource and its polling waits

    A shallow embedding of [internal/auth0/encryptionkeymanager/resource.go]
    of the Auth0 Terraform provider, together with the bounded polling
    helper [wait.Until] that its three remote flows (key deletion,
    wrapped-key import, root-key creation) are built on.

    Remote calls are modelled by explicit state passing: a computation
    takes the world as it stands and returns its result with the world
    it leaves behind.  The world carries the remote tenant and the list
    of calls made so far, so that "exactly one call" and "no call" can be
    stated. *)

From Stdlib Require Import ZArith List String Bool Lia.
Import ListNotations.
Local Open Scope Z_scope.

(** ** Package [wait] *)

Module wait.

Section Until.

(** [W] is the world the probe acts on, [E] the errors it may report. *)
Context {W E : Type}.

(** [time.Sleep]: the world as it stands after a pause of so many
    milliseconds (the remote side moves on its own meanwhile). *)
Variable sleep : Z -> W -> W.

(** Modelled from the spec: the [check] argument of [wait.Until], a
    side-effecting function without arguments returning [(done, err)]. *)
Definition Probe : Type := W -> (bool * option E) * W.

(** Modelled from the spec: the two ways a wait of [wait.Until] fails,
    ProbeError and TimeoutExhausted of the error taxonomy. *)
Inductive Error : Type :=
| ProbeError (e : E)
| TimeoutExhausted.

(** What a wait did, in order. *)
Inductive event : Type :=
| Checked (done : bool) (err : option E)
| Slept (ms : Z).

Record run : Type := mkRun {
  result : option Error;
  world : W;
  trace : list event
}.

(** Modelled from the spec: the body of [wait.Until] (package
    [internal/wait], missing from the sources).  Invoke the probe;
    an error aborts at once and is handed back; [done = true] is
    success; otherwise sleep and try again, up to [budget] invocations
    in all, with no sleep after the last one; a spent budget is the
    timeout. *)
Fixpoint poll (budget : nat) (intervalMillis : Z) (check : Probe) (w : W) : run :=
  match budget with
  | O => mkRun (Some TimeoutExhausted) w []
  | S rest =>
      let '((done, err), w1) := check w in
      match err with
      | Some e => mkRun (Some (ProbeError e)) w1 [Checked done err]
      | None =>
          if done then mkRun None w1 [Checked done err]
          else
            match rest with
            | O => mkRun (Some TimeoutExhausted) w1 [Checked done err]
            | S _ =>
                let r := poll rest intervalMillis check (sleep intervalMillis w1) in
                mkRun (result r) (world r)
                      (Checked done err :: Slept intervalMillis :: trace r)
            end
      end
  end.

(** Modelled from the spec: [waitUntil(maxAttempts, intervalMillis, check)],
    the function the sources call as [wait.Until]. *)
Definition Until (maxAttempts intervalMillis : Z) (check : Probe) (w : W) : run :=
  poll (Z.to_nat maxAttempts) intervalMillis check w.

(** The world in which invocation number [k] (counted from 0) of the
    probe takes place, as long as the earlier invocations asked for
    another attempt. *)
Fixpoint world_at (k : nat) (intervalMillis : Z) (check : Probe) (w : W) : W :=
  match k with
  | O => w
  | S k' => world_at k' intervalMillis check (sleep intervalMillis (snd (check w)))
  end.

Definition is_check (ev : event) : bool :=
  match ev with Checked _ _ => true | Slept _ => false end.

Definition is_sleep (ev : event) : bool :=
  match ev with Checked _ _ => false | Slept _ => true end.

(** Number of probe invocations and of sleeps recorded in a trace. *)
Definition checks (tr : list event) : Z := Z.of_nat (List.length (filter is_check tr)).
Definition sleeps (tr : list event) : Z := Z.of_nat (List.length (filter is_sleep tr)).

End Until.

Arguments Error : clear implicits.
Arguments event : clear implicits.
Arguments run : clear implicits.
Arguments Probe : clear implicits.
Arguments TimeoutExhausted {E}.

End wait.

(** ** Go values used by the resource *)

(** Go's [len] on a string. *)
Definition len (s : string) : Z := Z.of_nat (String.length s).

(** Go's [int] is 64 bits wide here; [page++] wraps around. *)
Definition int_incr (n : Z) : Z :=
  (n + 1 + 2 ^ 63) mod 2 ^ 64 - 2 ^ 63.

(** The dynamic values of Go's [error] that flow through the resource:
    what the management client hands back (it carries the HTTP status of
    the failed request), what [fmt.Errorf] builds, and the value by which
    package [wait] reports a spent budget. *)
Inductive error : Type :=
| ManagementError (status : Z) (message : string)
| Errorf (message : string)
| ErrTimeout.

(** [management.EncryptionKey]; the pointer fields are options. *)
Record EncryptionKey : Type := mkEncryptionKey {
  KID : option string;
  Type_ : option string;
  State : option string;
  CreatedAt : option string;
  UpdatedAt : option string;
  ParentKID : option string;
  WrappedKey : option string
}.

(** The generated getters give the zero value for a nil field. *)
Definition GetKID (k : EncryptionKey) : string :=
  match KID k with Some s => s | None => EmptyString end.
Definition GetType (k : EncryptionKey) : string :=
  match Type_ k with Some s => s | None => EmptyString end.
Definition GetState (k : EncryptionKey) : string :=
  match State k with Some s => s | None => EmptyString end.

(** [management.WrappingKey]. *)
Record WrappingKey : Type := mkWrappingKey {
  PublicKey : option string;
  Algorithm : option string
}.

(** [management.EncryptionKeyList]: one page of keys, and whether the
    listing has a further page. *)
Record EncryptionKeyList : Type := mkEncryptionKeyList {
  Keys : list EncryptionKey;
  HasNext : bool
}.

(** ** The remote side *)

(** The calls a flow makes, in the order it makes them. *)
Inductive call : Type :=
| CallRekey
| CallDelete (keyID : string)
| CallRead (keyID : string)
| CallCreate (key : EncryptionKey)
| CallImportWrappedKey (key : EncryptionKey)
| CallCreatePublicWrappingKey (keyID : string)
| CallList (page perPage : Z)
| CallSleep (ms : Z).

(** [api.EncryptionKey] of [*management.Management], over a remote tenant
    [R].  A call that fills in the struct it is given ([Create]) hands the
    filled struct back. *)
Record Management (R : Type) : Type := mkManagement {
  EncryptionKey_Rekey : R -> option error * R;
  EncryptionKey_Delete : string -> R -> option error * R;
  EncryptionKey_Read : string -> R -> (EncryptionKey + error) * R;
  EncryptionKey_Create : EncryptionKey -> R -> (EncryptionKey + error) * R;
  EncryptionKey_ImportWrappedKey : EncryptionKey -> R -> option error * R;
  EncryptionKey_CreatePublicWrappingKey : string -> R -> (WrappingKey + error) * R;
  EncryptionKey_List : Z -> Z -> R -> (EncryptionKeyList + error) * R
}.

Arguments EncryptionKey_Rekey {R}.
Arguments EncryptionKey_Delete {R}.
Arguments EncryptionKey_Read {R}.
Arguments EncryptionKey_Create {R}.
Arguments EncryptionKey_ImportWrappedKey {R}.
Arguments EncryptionKey_CreatePublicWrappingKey {R}.
Arguments EncryptionKey_List {R}.

(** The world of a flow: the remote tenant and the calls made so far. *)
Record World (R : Type) : Type := mkWorld {
  remote : R;
  calls : list call
}.

Arguments mkWorld {R}.
Arguments remote {R}.
Arguments calls {R}.

(** A computation with effects on the world. *)
Definition M (R A : Type) : Type := World R -> A * World R.

(** One remote call: it is entered in the list of calls and acts on the
    tenant. *)
Definition invoke {R A : Type} (c : call) (op : R -> A * R) : M R A :=
  fun w =>
    let '(a, r) := op (remote w) in
    (a, mkWorld r (calls w ++ [c])).

(** ** Terraform's resource data *)

(** One [customer_provided_root_key] block of the schema. *)
Record RootKeyBlock : Type := mkRootKeyBlock {
  wrapped_key : string;
  public_wrapping_key : string;
  wrapping_algorithm : string;
  key_id : string;
  type_ : string;
  state : string;
  parent_key_id : string;
  created_at : string;
  updated_at : string
}.

(** One [encryption_keys] element of the schema. *)
Record EncryptionKeyBlock : Type := mkEncryptionKeyBlock {
  ek_key_id : string;
  ek_type : string;
  ek_state : string;
  ek_parent_key_id : string;
  ek_created_at : string;
  ek_updated_at : string
}.

(** [*schema.ResourceData], as far as the resource looks at it: the
    state before the apply, the planned values, the values written with
    [Set] in the course of the call, and the raw configuration of the
    [customer_provided_root_key] attribute (null, or its blocks, each
    with its [wrapped_key], itself null or a string). *)
Record ResourceData : Type := mkResourceData {
  Id : string;
  IsNewResource : bool;
  state_key_rotation_id : string;
  plan_key_rotation_id : string;
  state_customer_provided_root_key : list RootKeyBlock;
  plan_customer_provided_root_key : list RootKeyBlock;
  set_customer_provided_root_key : option (list RootKeyBlock);
  raw_customer_provided_root_key : option (list (option string));
  encryption_keys : list EncryptionKeyBlock
}.

Definition RootKeyBlock_eqb (a b : RootKeyBlock) : bool :=
  String.eqb (wrapped_key a) (wrapped_key b)
  && String.eqb (public_wrapping_key a) (public_wrapping_key b)
  && String.eqb (wrapping_algorithm a) (wrapping_algorithm b)
  && String.eqb (key_id a) (key_id b)
  && String.eqb (type_ a) (type_ b)
  && String.eqb (state a) (state b)
  && String.eqb (parent_key_id a) (parent_key_id b)
  && String.eqb (created_at a) (created_at b)
  && String.eqb (updated_at a) (updated_at b).

Fixpoint blocks_eqb (l1 l2 : list RootKeyBlock) : bool :=
  match l1, l2 with
  | [], [] => true
  | a :: l1', b :: l2' => RootKeyBlock_eqb a b && blocks_eqb l1' l2'
  | _, _ => false
  end.

(** [data.Get("customer_provided_root_key")]: what was [Set] during the
    call if anything was, the planned value otherwise. *)
Definition Get_customer_provided_root_key (data : ResourceData) : list RootKeyBlock :=
  match set_customer_provided_root_key data with
  | Some blocks => blocks
  | None => plan_customer_provided_root_key data
  end.

(** [data.Get("customer_provided_root_key.#")]. *)
Definition Get_customer_provided_root_key_count (data : ResourceData) : Z :=
  Z.of_nat (List.length (Get_customer_provided_root_key data)).

(** [data.Get("customer_provided_root_key.0.<field>")] for a computed
    attribute of the block, which is what the resource reads this way.
    The SDK looks the address up level by level: the first block
    written with [Set] if there is one, else the first planned block,
    else the first block of the prior state, since a computed attribute
    of a block that has been taken out of the configuration has no
    entry in the diff and is still read from the state even though the
    count is then 0.  Without any block it is the zero value. *)
Definition Get_customer_provided_root_key_0 (field : RootKeyBlock -> string)
    (data : ResourceData) : string :=
  match set_customer_provided_root_key data with
  | Some (block :: _) => field block
  | _ =>
      match plan_customer_provided_root_key data with
      | block :: _ => field block
      | [] =>
          match state_customer_provided_root_key data with
          | block :: _ => field block
          | [] => EmptyString
          end
      end
  end.

(** [data.GetChange("customer_provided_root_key.#")]: the count in the
    prior state and the planned count. *)
Definition GetChange_customer_provided_root_key_count (data : ResourceData) : Z * Z :=
  (Z.of_nat (List.length (state_customer_provided_root_key data)),
   Z.of_nat (List.length (plan_customer_provided_root_key data))).

(** [data.HasChange(key)]: the prior and the planned value differ. *)
Definition HasChange_key_rotation_id (data : ResourceData) : bool :=
  negb (String.eqb (state_key_rotation_id data) (plan_key_rotation_id data)).

Definition HasChange_customer_provided_root_key (data : ResourceData) : bool :=
  negb (blocks_eqb (state_customer_provided_root_key data)
                   (plan_customer_provided_root_key data)).

(** [data.Get("key_rotation_id")]; the resource never sets it. *)
Definition Get_key_rotation_id (data : ResourceData) : string :=
  plan_key_rotation_id data.

(** [data.Set("customer_provided_root_key", blocks)].  The values the
    resource writes are typed by the schema, so the error [Set] has for
    ill-typed values does not arise and [Set] is total here. *)
Definition Set_customer_provided_root_key (data : ResourceData)
    (blocks : list RootKeyBlock) : ResourceData :=
  mkResourceData (Id data) (IsNewResource data)
    (state_key_rotation_id data) (plan_key_rotation_id data)
    (state_customer_provided_root_key data) (plan_customer_provided_root_key data)
    (Some blocks)
    (raw_customer_provided_root_key data) (encryption_keys data).

(** [data.Set("encryption_keys", keys)]. *)
Definition Set_encryption_keys (data : ResourceData)
    (keys : list EncryptionKeyBlock) : ResourceData :=
  mkResourceData (Id data) (IsNewResource data)
    (state_key_rotation_id data) (plan_key_rotation_id data)
    (state_customer_provided_root_key data) (plan_customer_provided_root_key data)
    (set_customer_provided_root_key data)
    (raw_customer_provided_root_key data) keys.

(** [data.SetId(id)]. *)
Definition SetId (data : ResourceData) (id : string) : ResourceData :=
  mkResourceData id (IsNewResource data)
    (state_key_rotation_id data) (plan_key_rotation_id data)
    (state_customer_provided_root_key data) (plan_customer_provided_root_key data)
    (set_customer_provided_root_key data)
    (raw_customer_provided_root_key data) (encryption_keys data).

(** [diag.Diagnostics]: the errors reported, each kept as the error value
    whose text is the diagnostic's summary. *)
Definition Diagnostics : Type := list error.

(** [diag.FromErr]. *)
Definition FromErr (err : option error) : Diagnostics :=
  match err with
  | None => []
  | Some e => [e]
  end.

(** [rootKeyAttrib.ForEachElement] with the callback of [update]: the
    callback never asks to stop, so every block is visited and the
    assignment made for the last one stays. *)
Fixpoint ForEachElement_wrapped_key (value_String : option string -> option string)
    (blocks : list (option string)) (wrappedKey : option string) : option string :=
  match blocks with
  | [] => wrappedKey
  | cfg :: rest => ForEachElement_wrapped_key value_String rest (value_String cfg)
  end.

(** ** Package [encryptionkeymanager] *)

Module encryptionkeymanager.

Section Resource.

(** The remote tenant, and how it moves on its own while the provider
    sleeps (keys change state on the server side). *)
Context {R : Type}.
Variable elapse : Z -> R -> R.

(** Functions of the repository that the resource calls and whose
    files are missing from the sources ([internal/error],
    [internal/value], and the flatten file of this package); they are
    parameters of the model. *)
Variable IsStatusNotFound : error -> bool.
Variable getKeyByTypeAndState :
  string -> string -> list EncryptionKey -> option EncryptionKey.
Variable flattenCustomerProvidedRootKey :
  ResourceData -> EncryptionKey -> option WrappingKey -> list RootKeyBlock.
Variable flattenEncryptionKeys : list EncryptionKey -> list EncryptionKeyBlock.
Variable value_String : option string -> option string.

(** [time.Sleep] as the resource's waits see it. *)
Definition Sleep (ms : Z) (w : World R) : World R :=
  mkWorld (elapse ms (remote w)) (calls w ++ [CallSleep ms]).

(** A wait's failure as a Go [error]: the probe's error as it is, the
    timeout as the value of package [wait]. *)
Definition as_error (e : wait.Error error) : error :=
  match e with
  | wait.ProbeError err => err
  | wait.TimeoutExhausted => ErrTimeout
  end.

(** [wait.Until(...)] at the call sites, where only the error is kept. *)
Definition wait_Until (maxAttempts intervalMillis : Z)
    (check : M R (bool * option error)) : M R (option error) :=
  fun w =>
    let r := wait.Until Sleep maxAttempts intervalMillis check w in
    (option_map as_error (wait.result r), wait.world r).

(** The closure polled by [removeKey]. *)
Definition removeKey_check (api : Management R) (keyID : string)
    : M R (bool * option error) :=
  fun w =>
    match invoke (CallRead keyID) (EncryptionKey_Read api keyID) w with
    | (inr err, w1) => ((false, Some err), w1)
    | (inl key, w1) => ((String.eqb (GetState key) "destroyed", None), w1)
    end.

Definition removeKey (api : Management R) (keyID : string) : M R (option error) :=
  fun w =>
    match invoke (CallDelete keyID) (EncryptionKey_Delete api keyID) w with
    | (Some err, w1) => (Some err, w1)
    | (None, w1) =>
        (* Wait until the key is actually destroyed. *)
        wait_Until 100 20 (removeKey_check api keyID) w1
    end.

(** The closure polled by [importWrappedKey]; [keyID] is the string the
    pointer argument points to. *)
Definition importWrappedKey_check (api : Management R) (keyID : string)
    : M R (bool * option error) :=
  fun w =>
    match invoke (CallRead keyID) (EncryptionKey_Read api keyID) w with
    | (inr err, w1) => ((false, Some err), w1)
    | (inl key, w1) => ((String.eqb (GetState key) "active", None), w1)
    end.

Definition importWrappedKey (api : Management R) (keyID : string)
    (wrappedKey : option string) : M R (option error) :=
  fun w =>
    let encryptionKey :=
      mkEncryptionKey (Some keyID) None None None None None wrappedKey in
    match invoke (CallImportWrappedKey encryptionKey)
                 (EncryptionKey_ImportWrappedKey api encryptionKey) w with
    | (Some err, w1) => (Some err, w1)
    | (None, w1) =>
        (* Wait until the key is actually activated. *)
        wait_Until 100 20 (importWrappedKey_check api keyID) w1
    end.

(** The closure polled by [createRootKey]; [key] is the struct filled in
    by [Create]. *)
Definition createRootKey_check (api : Management R) (key : EncryptionKey)
    : M R (bool * option error) :=
  fun w =>
    match invoke (CallRead (GetKID key)) (EncryptionKey_Read api (GetKID key)) w with
    | (inr err, w1) =>
        if IsStatusNotFound err then ((false, None), w1)
        else ((false, Some err), w1)
    | (inl _, w1) => ((true, None), w1)
    end.

Definition createRootKey (api : Management R)
    : M R (EncryptionKey * WrappingKey + error) :=
  fun w =>
    let key0 :=
      mkEncryptionKey None (Some "customer-provided-root-key"%string)
                      None None None None None in
    match invoke (CallCreate key0) (EncryptionKey_Create api key0) w with
    | (inr err, w1) => (inr err, w1)
    | (inl key, w1) =>
        (* Wait until the key is actually available. *)
        match wait_Until 100 20 (createRootKey_check api key) w1 with
        | (Some err, w2) => (inr err, w2)
        | (None, w2) =>
            match invoke (CallCreatePublicWrappingKey (GetKID key))
                         (EncryptionKey_CreatePublicWrappingKey api (GetKID key)) w2 with
            | (inr err, w3) => (inr err, w3)
            | (inl wrappingKey, w3) => (inl (key, wrappingKey), w3)
            end
        end
    end.

(** The listing loop of [readEncryptionKeyManager].  The loop of the
    source has no bound of its own; [fuel] is the number of pages the
    model is ready to ask for, and [None] means that it was not
    enough. *)
Fixpoint listEncryptionKeys (fuel : nat) (api : Management R) (page : Z)
    (encryptionKeys : list EncryptionKey)
    : M R (option (list EncryptionKey + error)) :=
  fun w =>
    match fuel with
    | O => (None, w)
    | S fuel' =>
        match invoke (CallList page 5) (EncryptionKey_List api page 5) w with
        | (inr err, w1) => (Some (inr err), w1)
        | (inl encryptionKeyList, w1) =>
            let encryptionKeys' := encryptionKeys ++ Keys encryptionKeyList in
            if HasNext encryptionKeyList
            then listEncryptionKeys fuel' api (int_incr page) encryptionKeys' w1
            else (Some (inl encryptionKeys'), w1)
        end
    end.

Definition readEncryptionKeyManager (fuel : nat) (api : Management R)
    (data : ResourceData) : M R (option (Diagnostics * ResourceData)) :=
  fun w =>
    match listEncryptionKeys fuel api 0 [] w with
    | (None, w1) => (None, w1)
    | (Some (inr err), w1) => (Some (FromErr (Some err), data), w1)
    | (Some (inl encryptionKeys), w1) =>
        let data1 :=
          if 0 <? Get_customer_provided_root_key_count data then
            (* First try to find a key that is going through the
               activation process. *)
            let rootKey :=
              match getKeyByTypeAndState "customer-provided-root-key"
                                         "pre-activation" encryptionKeys with
              | Some key => Some key
              | None =>
                  (* If we didn't find one, try to find a key that is
                     already active. *)
                  getKeyByTypeAndState "customer-provided-root-key"
                                       "active" encryptionKeys
              end in
            match rootKey with
            | Some key =>
                Set_customer_provided_root_key data
                  (flattenCustomerProvidedRootKey data key None)
            | None => data
            end
          else data in
        (Some (FromErr None,
               Set_encryption_keys data1 (flattenEncryptionKeys encryptionKeys)),
         w1)
    end.

Definition deleteEncryptionKeyManager (api : Management R) (data : ResourceData)
    : M R Diagnostics :=
  fun w =>
    let rootKeyID := Get_customer_provided_root_key_0 key_id data in
    if 0 <? len rootKeyID then
      let '(err, w1) := removeKey api rootKeyID w in (FromErr err, w1)
    else ([], w).

(** The text of the error [update] builds with [fmt.Errorf]. *)
Definition wrapped_key_too_early : string :=
  ("The wrapped_key attribute should not be specified in the "
   ++ "customer_provided_root_key block until after the public_wrapping_key has been generated")%string.

Definition updateEncryptionKeyManager (fuel : nat) (api : Management R)
    (data : ResourceData) : M R (option (Diagnostics * ResourceData)) :=
  fun w =>
    let '(rekeyErr, w1) :=
      if negb (IsNewResource data) && HasChange_key_rotation_id data then
        let keyRotationID := Get_key_rotation_id data in
        if 0 <? len keyRotationID
        then invoke CallRekey (EncryptionKey_Rekey api) w
        else (None, w)
      else (None, w) in
    match rekeyErr with
    | Some err => (Some (FromErr (Some err), data), w1)
    | None =>
        let '(rootKeyErr, data1, w4) :=
          if IsNewResource data || HasChange_customer_provided_root_key data then
            let '(oldCountValue, newCountValue) :=
              GetChange_customer_provided_root_key_count data in
            let rootKeyID := Get_customer_provided_root_key_0 key_id data in
            let rootKeyState := Get_customer_provided_root_key_0 state data in
            let publicWrappingKey :=
              Get_customer_provided_root_key_0 public_wrapping_key data in
            let rootKeyAttrib := raw_customer_provided_root_key data in
            let blocks := match rootKeyAttrib with Some l => l | None => [] end in
            if match rootKeyAttrib with None => true | Some _ => false end
               || (Z.of_nat (List.length blocks) =? 0) then
              (* The customer_provided_root_key block is not present,
                 check if there was a key. *)
              if 0 <? len rootKeyID then
                let '(err, w2) := removeKey api rootKeyID w1 in (err, data, w2)
              else (None, data, w1)
            else
              let wrappedKey := ForEachElement_wrapped_key value_String blocks None in
              let '(wrappedErr, w2) :=
                match wrappedKey with
                | Some _ =>
                    if (0 <? len rootKeyID)
                       && String.eqb rootKeyState "pre-activation"
                       && (0 <? len publicWrappingKey)
                    then importWrappedKey api rootKeyID wrappedKey w1
                    else if (len rootKeyID =? 0) || (len publicWrappingKey =? 0)
                    then (Some (Errorf wrapped_key_too_early), w1)
                    else (None, w1)
                | None => (None, w1)
                end in
              match wrappedErr with
              | Some err => (Some err, data, w2)
              | None =>
                  (* If we don't have a root key in progress yet, or this
                     block is newly created create a new one. *)
                  if (len rootKeyID =? 0)
                     || ((oldCountValue =? 0) && (newCountValue =? 1)) then
                    match createRootKey api w2 with
                    | (inr err, w3) => (Some err, data, w3)
                    | (inl (rootKey, wrappingKey), w3) =>
                        (None,
                         Set_customer_provided_root_key data
                           (flattenCustomerProvidedRootKey data rootKey
                                                           (Some wrappingKey)),
                         w3)
                    end
                  else (None, data, w2)
              end
          else (None, data, w1) in
        match rootKeyErr with
        | Some err => (Some (FromErr (Some err), data1), w4)
        | None => readEncryptionKeyManager fuel api data1 w4
        end
    end.

(** [uniqueId] stands for the value of [id.UniqueId()]. *)
Definition createEncryptionKeyManager (uniqueId : string) (fuel : nat)
    (api : Management R) (data : ResourceData)
    : M R (option (Diagnostics * ResourceData)) :=
  updateEncryptionKeyManager fuel api (SetId data uniqueId).

(** Number of [ImportWrappedKey] and of [CreatePublicWrappingKey] calls
    in a list of calls. *)
Definition is_import (c : call) : bool :=
  match c with CallImportWrappedKey _ => true | _ => false end.

Definition is_wrapping_fetch (c : call) : bool :=
  match c with CallCreatePublicWrappingKey _ => true | _ => false end.

Definition is_read (c : call) : bool :=
  match c with CallRead _ => true | _ => false end.

Definition count (p : call -> bool) (cs : list call) : Z :=
  Z.of_nat (List.length (filter p cs)).

(** The condition under which [update] calls [Rekey]. *)
Definition rekey_due (data : ResourceData) : bool :=
  negb (IsNewResource data) && HasChange_key_rotation_id data
  && (0 <? len (Get_key_rotation_id data)).

(** The struct [createRootKey] hands to [Create]. *)
Definition newRootKey : EncryptionKey :=
  mkEncryptionKey None (Some "customer-provided-root-key"%string)
                  None None None None None.

End Resource.

End encryptionkeymanager.

(** ** A scripted tenant

    Concrete instances of the parameters of the model, on which the
    flows can be run: the reads answer from a queue, the listing pages
    over a fixed list of keys. *)

Module Scripted.

(** A probe that answers from a queue, and [(false, nil)] once the
    queue is empty. *)
Definition probe {E : Type} : wait.Probe (list (bool * option E)) E :=
  fun w =>
    match w with
    | [] => ((false, None), [])
    | answer :: rest => (answer, rest)
    end.

(** A sleep during which nothing happens. *)
Definition idle {W : Type} (ms : Z) (w : W) : W := w.

Record Remote : Type := mkRemote {
  reads : list (EncryptionKey + error);
  listed : list EncryptionKey;
  wrapping : WrappingKey + error;
  rekey : option error
}.

Definition notFound : error := ManagementError 404 "Not Found".
Definition forbidden : error := ManagementError 403 "Forbidden".

Definition IsStatusNotFound (err : error) : bool :=
  match err with
  | ManagementError status _ => status =? 404
  | _ => false
  end.

Definition api : Management Remote :=
  mkManagement Remote
    (fun r => (rekey r, r))
    (fun _ r => (None, r))
    (fun _ r =>
       match reads r with
       | [] => (inr notFound, r)
       | answer :: rest => (answer, mkRemote rest (listed r) (wrapping r) (rekey r))
       end)
    (fun key r =>
       (inl (mkEncryptionKey (Some "kid-1"%string) (Type_ key) (Some "pre-activation"%string)
                             None None None None), r))
    (fun _ r => (None, r))
    (fun _ r => (wrapping r, r))
    (fun page perPage r =>
       (inl (mkEncryptionKeyList
               (firstn (Z.to_nat perPage) (skipn (Z.to_nat (page * perPage)) (listed r)))
               ((page + 1) * perPage <? Z.of_nat (List.length (listed r)))), r)).

Definition getKeyByTypeAndState (keyType keyState : string)
    (keys : list EncryptionKey) : option EncryptionKey :=
  find (fun key => String.eqb (GetType key) keyType
                   && String.eqb (GetState key) keyState) keys.

Definition flattenCustomerProvidedRootKey (data : ResourceData)
    (rootKey : EncryptionKey) (wrappingKey : option WrappingKey)
    : list RootKeyBlock :=
  [mkRootKeyBlock
     (Get_customer_provided_root_key_0 wrapped_key data)
     (match wrappingKey with
      | Some wk => match PublicKey wk with Some s => s | None => EmptyString end
      | None => Get_customer_provided_root_key_0 public_wrapping_key data
      end)
     (match wrappingKey with
      | Some wk => match Algorithm wk with Some s => s | None => EmptyString end
      | None => Get_customer_provided_root_key_0 wrapping_algorithm data
      end)
     (GetKID rootKey) (GetType rootKey) (GetState rootKey)
     EmptyString EmptyString EmptyString].

Definition flattenEncryptionKeys (keys : list EncryptionKey)
    : list EncryptionKeyBlock :=
  map (fun key => mkEncryptionKeyBlock (GetKID key) (GetType key) (GetState key)
                    EmptyString EmptyString EmptyString) keys.

Definition value_String (v : option string) : option string := v.

Definition key (kid keyType keyState : string) : EncryptionKey :=
  mkEncryptionKey (Some kid) (Some keyType) (Some keyState) None None None None.

Definition pem : WrappingKey :=
  mkWrappingKey (Some "PEM"%string) (Some "CKM_RSA_AES_KEY_WRAP"%string).

(** A tenant whose reads answer from [answers], with no call made yet. *)
Definition tenant (answers : list (EncryptionKey + error)) : World Remote :=
  mkWorld (mkRemote answers [] (inl pem) None) [].

(** A tenant that lists [keys]. *)
Definition tenant_listing (keys : list EncryptionKey) : World Remote :=
  mkWorld (mkRemote [] keys (inl pem) None) [].

(** A tenant on which [Rekey] is refused. *)
Definition tenant_no_rekey : World Remote :=
  mkWorld (mkRemote [] [] (inl pem) (Some forbidden)) [].

(** A tenant on which the wrapping key cannot be fetched. *)
Definition tenant_no_wrapping (answers : list (EncryptionKey + error)) : World Remote :=
  mkWorld (mkRemote answers [] (inr forbidden) None) [].

Definition root : string := "customer-provided-root-key".

(** A block of the configuration that has its wrapped key and nothing
    computed yet. *)
Definition early_block : RootKeyBlock :=
  mkRootKeyBlock "abc" "" "" "" "" "" "" "" "".

(** A block as it is once the root key has been created. *)
Definition pending_block : RootKeyBlock :=
  mkRootKeyBlock "" "PEM" "CKM_RSA_AES_KEY_WRAP" "kid-1" root "pre-activation" "" "" "".

(** A new resource whose block comes with a wrapped key. *)
Definition early_new : ResourceData :=
  mkResourceData "id-1" true "" "" [] [early_block] None (Some [Some "abc"%string]) [].

(** An existing resource whose block, wrapped key and all, is the one
    of the prior state. *)
Definition early_unchanged : ResourceData :=
  mkResourceData "id-1" false "" "" [early_block] [early_block] None
                 (Some [Some "abc"%string]) [].

(** An existing resource that gets its block, with a wrapped key, and a
    new rotation ID in the same apply. *)
Definition early_rekey : ResourceData :=
  mkResourceData "id-1" false "r1" "r2" [] [early_block] None
                 (Some [Some "abc"%string]) [].

(** An existing resource with a root key in progress. *)
Definition pending : ResourceData :=
  mkResourceData "id-1" false "" "" [pending_block] [pending_block] None
                 (Some [None]) [].

(** An existing resource without a root key block. *)
Definition plain : ResourceData :=
  mkResourceData "id-1" false "" "" [] [] None None [].

(** The flows on the scripted tenant. *)
Definition update : nat -> Management Remote -> ResourceData
                    -> M Remote (option (Diagnostics * ResourceData)) :=
  encryptionkeymanager.updateEncryptionKeyManager idle IsStatusNotFound
    getKeyByTypeAndState flattenCustomerProvidedRootKey flattenEncryptionKeys
    value_String.

Definition read : nat -> Management Remote -> ResourceData
                  -> M Remote (option (Diagnostics * ResourceData)) :=
  encryptionkeymanager.readEncryptionKeyManager getKeyByTypeAndState
    flattenCustomerProvidedRootKey flattenEncryptionKeys.

End Scripted.

(** ** Package [error] ([internal/error/diag_error.go]) *)

Module internal_error.

(** Go errors as [DiagnosticsFromError] tells them apart: a
    [*multierror.Error] with its [Errors]; a nil [*multierror.Error]
    pointer inside a non-nil interface value; or any other error, known
    by the text its [Error()] method gives. *)
#[warnings="-register-all"]
Inductive goerror : Type :=
| OtherError (text : string)
| MultiError (Errors : list goerror)
| NilMultiError.

(** The framework's [diag.Diagnostic], by severity, summary and detail. *)
Inductive Severity : Type :=
| SeverityError
| SeverityWarning.

Record Diagnostic : Type := mkDiagnostic {
  DiagSeverity : Severity;
  Summary : string;
  Detail : string
}.

(** The framework's [diag.Diagnostics]. *)
Definition Diagnostics : Type := list Diagnostic.

(** [diag.NewErrorDiagnostic]. *)
Definition ErrorDiagnostic (summary detail : string) : Diagnostic :=
  mkDiagnostic SeverityError summary detail.

Section FromError.

(** Two functions of the libraries: the format a [*multierror.Error]
    gives its own text with, which may panic ([None]) as the library's
    own list format does on a nil pointer among the errors, and
    [AddError] of [diag.Diagnostics]. *)
Variable ErrorFormat : list goerror -> option string.
Variable AddError : string -> string -> Diagnostics -> Diagnostics.

(** [err.Error()]; [None] is a panic: the method of
    [*multierror.Error] reads a field of its receiver, which a nil
    pointer does not have. *)
Definition Error_text (err : goerror) : option string :=
  match err with
  | OtherError text => Some text
  | MultiError errs => ErrorFormat errs
  | NilMultiError => None
  end.

(** The loop over [mErr.Errors]; a panic ends it. *)
Fixpoint AddErrors (errs : list goerror) (result : Diagnostics) : option Diagnostics :=
  match errs with
  | [] => Some result
  | err :: rest =>
      match Error_text err with
      | None => None
      | Some text => AddErrors rest (AddError "Error" text result)
      end
  end.

(** [None] is a panic.  The type assertion succeeds on a nil
    [*multierror.Error] too, and [len(mErr.Errors)] then reads a field
    of the nil pointer. *)
Definition DiagnosticsFromError (err : option goerror) : option Diagnostics :=
  let result : Diagnostics := [] in
  match err with
  | None => Some result
  | Some NilMultiError => None
  | Some (MultiError errs) =>
      if Z.of_nat (List.length errs) =? 0 then Some result
      else AddErrors errs result
  | Some (OtherError text) =>
      match Error_text (OtherError text) with
      | None => None
      | Some detail => Some (AddError "Error" detail result)
      end
  end.

End FromError.

Definition Severity_eqb (a b : Severity) : bool :=
  match a, b with
  | SeverityError, SeverityError => true
  | SeverityWarning, SeverityWarning => true
  | _, _ => false
  end.

Definition Diagnostic_eqb (a b : Diagnostic) : bool :=
  Severity_eqb (DiagSeverity a) (DiagSeverity b)
  && String.eqb (Summary a) (Summary b)
  && String.eqb (Detail a) (Detail b).

(** An [AddError] that leaves out a diagnostic the collection already
    has, and a format for the text of a [*multierror.Error] that, like
    the library's, asks each error for its text. *)
Definition AddError_once (summary detail : string) (diags : Diagnostics) : Diagnostics :=
  if existsb (Diagnostic_eqb (ErrorDiagnostic summary detail)) diags
  then diags
  else diags ++ [ErrorDiagnostic summary detail].

Definition count_format (errs : list goerror) : option string :=
  if existsb (fun err => match err with NilMultiError => true | _ => false end) errs
  then None
  else
    match errs with
    | [] => Some "0 errors occurred"%string
    | [_] => Some "1 error occurred"%string
    | _ => Some "several errors occurred"%string
    end.

End internal_error.

(** ** The steps of [update] *)

Module steps.

Section Steps.

Context {R : Type}.
Variable elapse : Z -> R -> R.
Variable IsStatusNotFound : error -> bool.
Variable flattenCustomerProvidedRootKey :
  ResourceData -> EncryptionKey -> option WrappingKey -> list RootKeyBlock.
Variable value_String : option string -> option string.

(** The first [if] of [updateEncryptionKeyManager], with the error it
    may return. *)
Definition rekeyStep (api : Management R) (data : ResourceData) : M R (option error) :=
  fun w =>
    if negb (IsNewResource data) && HasChange_key_rotation_id data then
      if 0 <? len (Get_key_rotation_id data)
      then invoke CallRekey (EncryptionKey_Rekey api) w
      else (None, w)
    else (None, w).

(** Whether the [customer_provided_root_key] attribute of the
    configuration is null or empty. *)
Definition block_absent (data : ResourceData) : bool :=
  match raw_customer_provided_root_key data with
  | None => true
  | Some blocks => Z.of_nat (List.length blocks) =? 0
  end.

(** The [wrappedKey] that [update] reads from the configuration. *)
Definition config_wrapped_key (data : ResourceData) : option string :=
  ForEachElement_wrapped_key value_String
    (match raw_customer_provided_root_key data with Some l => l | None => [] end)
    None.

(** The three conditions [update] tests on the stored block. *)
Definition import_due (data : ResourceData) : bool :=
  (0 <? len (Get_customer_provided_root_key_0 key_id data))
  && String.eqb (Get_customer_provided_root_key_0 state data) "pre-activation"
  && (0 <? len (Get_customer_provided_root_key_0 public_wrapping_key data)).

Definition too_early (data : ResourceData) : bool :=
  (len (Get_customer_provided_root_key_0 key_id data) =? 0)
  || (len (Get_customer_provided_root_key_0 public_wrapping_key data) =? 0).

Definition create_due (data : ResourceData) : bool :=
  (len (Get_customer_provided_root_key_0 key_id data) =? 0)
  || ((fst (GetChange_customer_provided_root_key_count data) =? 0)
      && (snd (GetChange_customer_provided_root_key_count data) =? 1)).

(** The [if wrappedKey != nil] block. *)
Definition wrappedKeyStep (api : Management R) (data : ResourceData)
    : M R (option error) :=
  fun w =>
    match config_wrapped_key data with
    | Some _ =>
        if import_due data
        then encryptionkeymanager.importWrappedKey elapse api
               (Get_customer_provided_root_key_0 key_id data)
               (config_wrapped_key data) w
        else if too_early data
        then (Some (Errorf encryptionkeymanager.wrapped_key_too_early), w)
        else (None, w)
    | None => (None, w)
    end.

(** The block that creates a root key. *)
Definition createStep (api : Management R) (data : ResourceData)
    : M R (option error * ResourceData) :=
  fun w =>
    if create_due data then
      match encryptionkeymanager.createRootKey elapse IsStatusNotFound api w with
      | (inr err, w3) => ((Some err, data), w3)
      | (inl (rootKey, wrappingKey), w3) =>
          ((None,
            Set_customer_provided_root_key data
              (flattenCustomerProvidedRootKey data rootKey (Some wrappingKey))),
           w3)
      end
    else ((None, data), w).

(** The second [if] of [updateEncryptionKeyManager]. *)
Definition rootKeyStep (api : Management R) (data : ResourceData)
    : M R (option error * ResourceData) :=
  fun w =>
    if IsNewResource data || HasChange_customer_provided_root_key data then
      if block_absent data then
        if 0 <? len (Get_customer_provided_root_key_0 key_id data) then
          let '(err, w2) :=
            encryptionkeymanager.removeKey elapse api
              (Get_customer_provided_root_key_0 key_id data) w in
          ((err, data), w2)
        else ((None, data), w)
      else
        match wrappedKeyStep api data w with
        | (Some err, w2) => ((Some err, data), w2)
        | (None, w2) => createStep api data w2
        end
    else ((None, data), w).

End Steps.

(** Kinds of calls. *)
Definition is_rekey (c : call) : bool :=
  match c with CallRekey => true | _ => false end.

Definition is_delete (c : call) : bool :=
  match c with CallDelete _ => true | _ => false end.

Definition is_create (c : call) : bool :=
  match c with CallCreate _ => true | _ => false end.

Definition is_list (c : call) : bool :=
  match c with CallList _ _ => true | _ => false end.

(** The calls of a wait that ends at its invocation number [k]: a read,
    then [k] times a sleep and a read. *)
Fixpoint polling (keyID : string) (intervalMillis : Z) (k : nat) : list call :=
  match k with
  | O => [CallRead keyID]
  | S k' => CallRead keyID :: CallSleep intervalMillis :: polling keyID intervalMillis k'
  end.

(** The calls of a listing of [n] pages from page [page] on. *)
Fixpoint listing (page : Z) (n : nat) : list call :=
  match n with
  | O => []
  | S n' => CallList page 5 :: listing (page + 1) n'
  end.

(** A computation none of whose calls is of the kind [p]. *)
Definition quiet {R A : Type} (p : call -> bool) (m : M R A) : Prop :=
  forall w, exists delta,
    calls (snd (m w)) = calls w ++ delta /\ encryptionkeymanager.count p delta = 0.

(** The rekey step of [update] takes the world from [w] to [w1] without
    an error: no rekey is due, or the [Rekey] call goes well. *)
Definition rekey_passes {R : Type} (api : Management R) (data : ResourceData)
    (w w1 : World R) : Prop :=
  encryptionkeymanager.rekey_due data = false /\ w1 = w
  \/ encryptionkeymanager.rekey_due data = true
     /\ invoke CallRekey (EncryptionKey_Rekey api) w = (None, w1).

(** The configuration has a [customer_provided_root_key] block. *)
Definition block_present (data : ResourceData) : Prop :=
  exists blocks, raw_customer_provided_root_key data = Some blocks /\ blocks <> [].

(** The resource is new or its [customer_provided_root_key] has changed. *)
Definition root_key_touched (data : ResourceData) : bool :=
  IsNewResource data || HasChange_customer_provided_root_key data.

(** Two values of the resource data that differ at most in what [Set]
    wrote: the block set during the call and the [encryption_keys]. *)
Definition same_inputs (d d' : ResourceData) : Prop :=
  Id d' = Id d
  /\ IsNewResource d' = IsNewResource d
  /\ state_key_rotation_id d' = state_key_rotation_id d
  /\ plan_key_rotation_id d' = plan_key_rotation_id d
  /\ state_customer_provided_root_key d' = state_customer_provided_root_key d
  /\ plan_customer_provided_root_key d' = plan_customer_provided_root_key d
  /\ raw_customer_provided_root_key d' = raw_customer_provided_root_key d.

End steps.

(** ** More scripted data *)

Module Scenario.

(** The block of a key in progress whose wrapped key is configured. *)
Definition wrapped_block : RootKeyBlock :=
  mkRootKeyBlock "abc" "PEM" "CKM_RSA_AES_KEY_WRAP" "kid-1" Scripted.root
                 "pre-activation" "" "" "".

(** The block of an activated key, without and with the wrapped key. *)
Definition active_block : RootKeyBlock :=
  mkRootKeyBlock "" "PEM" "CKM_RSA_AES_KEY_WRAP" "kid-1" Scripted.root "active" "" "" "".

Definition active_wrapped_block : RootKeyBlock :=
  mkRootKeyBlock "abc" "PEM" "CKM_RSA_AES_KEY_WRAP" "kid-1" Scripted.root "active" "" "" "".

Definition blank_block : RootKeyBlock :=
  mkRootKeyBlock "" "" "" "" "" "" "" "" "".

(** The block has been taken out of the configuration: the plan has no
    block, and the computed attributes of the recorded key are still
    read from the prior state. *)
Definition removed : ResourceData :=
  mkResourceData "id-1" false "" "" [Scripted.pending_block] [] None None [].

(** The wrapped key has been added to the block of a key in progress. *)
Definition importing : ResourceData :=
  mkResourceData "id-1" false "" "" [Scripted.pending_block] [wrapped_block] None
                 (Some [Some "abc"%string]) [].

(** The wrapped key has been put back in the block of an active key. *)
Definition activated : ResourceData :=
  mkResourceData "id-1" false "" "" [active_block] [active_wrapped_block] None
                 (Some [Some "abc"%string]) [].

(** A new resource with an empty block. *)
Definition fresh : ResourceData :=
  mkResourceData "" true "" "" [] [blank_block] None (Some [None]) [].

Definition active_key : EncryptionKey := Scripted.key "kid-1" Scripted.root "active".
Definition pending_key : EncryptionKey := Scripted.key "kid-1" Scripted.root "pre-activation".
Definition destroyed_key : EncryptionKey := Scripted.key "kid-1" Scripted.root "destroyed".

Definition Sleep : Z -> World Scripted.Remote -> World Scripted.Remote :=
  encryptionkeymanager.Sleep Scripted.idle.

Definition removeKey : string -> M Scripted.Remote (option error) :=
  encryptionkeymanager.removeKey Scripted.idle Scripted.api.

Definition importWrappedKey : string -> option string -> M Scripted.Remote (option error) :=
  encryptionkeymanager.importWrappedKey Scripted.idle Scripted.api.

Definition createRootKey : M Scripted.Remote (EncryptionKey * WrappingKey + error) :=
  encryptionkeymanager.createRootKey Scripted.idle Scripted.IsStatusNotFound Scripted.api.

Definition create : string -> nat -> ResourceData
                    -> M Scripted.Remote (option (Diagnostics * ResourceData)) :=
  fun uniqueId fuel =>
    encryptionkeymanager.createEncryptionKeyManager Scripted.idle Scripted.IsStatusNotFound
      Scripted.getKeyByTypeAndState Scripted.flattenCustomerProvidedRootKey
      Scripted.flattenEncryptionKeys Scripted.value_String uniqueId fuel Scripted.api.

Definition FromError : option internal_error.goerror -> option internal_error.Diagnostics :=
  internal_error.DiagnosticsFromError internal_error.count_format
    internal_error.AddError_once.

(** A new resource that comes with a rotation ID. *)
Definition fresh_rotating : ResourceData :=
  mkResourceData "" true "" "r1" [] [blank_block] None (Some [None]) [].

(** Seven keys, which make two pages. *)
Definition seven_keys : list EncryptionKey :=
  [Scripted.key "kid-0" "tenant-master-key" "active";
   Scripted.key "kid-1" Scripted.root "pre-activation";
   Scripted.key "kid-2" "environment-root-key" "active";
   Scripted.key "kid-3" "tenant-master-key" "deactivated";
   Scripted.key "kid-4" "tenant-master-key" "destroyed";
   Scripted.key "kid-5" Scripted.root "destroyed";
   Scripted.key "kid-6" Scripted.root "deactivated"].

(** A tenant whose reads answer from [answers] and that lists [keys]. *)
Definition tenant_with (answers : list (EncryptionKey + error))
    (keys : list EncryptionKey) : World Scripted.Remote :=
  mkWorld (Scripted.mkRemote answers keys (inl Scripted.pem) None) [].

(** Whether a test holds of every number below [n]. *)
Definition all_below (n : nat) (test : nat -> bool) : bool :=
  forallb test (seq 0 n).

End Scenario.

(** ** Facts about [wait.Until] *)

Section WaitFacts.

Context {W E : Type}.
Variable sleep : Z -> W -> W.

Import wait.

Let Probe : Type := wait.Probe W E.

(** One unfolding of the loop when the probe asks for another attempt
    and the budget allows one. *)
Lemma poll_retry (n : nat) (i : Z) (check : Probe) (w : W) :
  fst (check w) = (false, None) ->
  poll sleep (S (S n)) i check w =
  let r := poll sleep (S n) i check (sleep i (snd (check w))) in
  mkRun (result r) (world r) (Checked false None :: Slept i :: trace r).
Proof.
  intros Hc. cbn [poll]. destruct (check w) as [[done err] w1].
  cbn in Hc. inversion Hc; subst. reflexivity.
Qed.

Lemma checks_cons_checked (d : bool) (err : option E) (tr : list (event E)) :
  checks (Checked d err :: tr) = checks tr + 1.
Proof. unfold checks. cbn [filter is_check List.length]. lia. Qed.

Lemma checks_cons_slept (ms : Z) (tr : list (event E)) :
  checks (Slept ms :: tr) = checks tr.
Proof. reflexivity. Qed.

Lemma sleeps_cons_checked (d : bool) (err : option E) (tr : list (event E)) :
  sleeps (Checked d err :: tr) = sleeps tr.
Proof. reflexivity. Qed.

Lemma sleeps_cons_slept (ms : Z) (tr : list (event E)) :
  sleeps (Slept ms :: tr) = sleeps tr + 1.
Proof. unfold sleeps. cbn [filter is_sleep List.length]. lia. Qed.

(** A probe that keeps asking for another attempt spends the budget. *)
Lemma poll_exhausted (n : nat) (i : Z) (check : Probe) :
  forall w,
    (forall k, (k <= n)%nat -> fst (check (world_at sleep k i check w)) = (false, None)) ->
    let r := poll sleep (S n) i check w in
    result r = Some TimeoutExhausted
    /\ checks (trace r) = Z.of_nat (S n)
    /\ sleeps (trace r) = Z.of_nat n
    /\ world r = snd (check (world_at sleep n i check w)).
Proof.
  induction n as [|n IH]; intros w H.
  - specialize (H O (le_n _)). cbn [world_at] in H |- *.
    cbn [poll]. destruct (check w) as [[done err] w1].
    cbn in H. inversion H; subst. cbn. repeat split.
  - pose proof (H O (Nat.le_0_l _)) as H0. cbn [world_at] in H0.
    rewrite (poll_retry _ _ _ _ H0). cbv zeta.
    destruct (IH (sleep i (snd (check w)))) as (Hr & Hc & Hs & Hw).
    { intros k Hk. apply (H (S k)). lia. }
    cbn [result world trace].
    rewrite checks_cons_checked, checks_cons_slept, sleeps_cons_checked, sleeps_cons_slept.
    repeat split; [exact Hr | lia | lia | exact Hw].
Qed.

(** An error at invocation [k] ends the wait there. *)
Lemma poll_abort (k : nat) (i : Z) (check : Probe) :
  forall (n : nat) (w : W) (d : bool) (e : E),
    (k < n)%nat ->
    (forall j, (j < k)%nat -> fst (check (world_at sleep j i check w)) = (false, None)) ->
    fst (check (world_at sleep k i check w)) = (d, Some e) ->
    let r := poll sleep n i check w in
    result r = Some (ProbeError e)
    /\ checks (trace r) = Z.of_nat k + 1
    /\ sleeps (trace r) = Z.of_nat k
    /\ world r = snd (check (world_at sleep k i check w)).
Proof.
  induction k as [|k IH]; intros n w d e Hn Hpre Hk.
  - destruct n as [|n]; [lia|]. cbn [world_at] in Hk |- *.
    cbn [poll]. destruct (check w) as [[done err] w1].
    cbn in Hk. inversion Hk; subst. cbn. repeat split.
  - destruct n as [|[|n]]; [lia|lia|].
    pose proof (Hpre O (Nat.lt_0_succ _)) as H0. cbn [world_at] in H0.
    rewrite (poll_retry _ _ _ _ H0). cbv zeta.
    destruct (IH (S n) (sleep i (snd (check w))) d e) as (Hr & Hc & Hs & Hw).
    { lia. }
    { intros j Hj. apply (Hpre (S j)). lia. }
    { exact Hk. }
    cbn [result world trace world_at].
    rewrite checks_cons_checked, checks_cons_slept, sleeps_cons_checked, sleeps_cons_slept.
    repeat split; [exact Hr | lia | lia | exact Hw].
Qed.

(** Success at invocation [k] ends the wait there. *)
Lemma poll_done (k : nat) (i : Z) (check : Probe) :
  forall (n : nat) (w : W),
    (k < n)%nat ->
    (forall j, (j < k)%nat -> fst (check (world_at sleep j i check w)) = (false, None)) ->
    fst (check (world_at sleep k i check w)) = (true, None) ->
    let r := poll sleep n i check w in
    result r = None
    /\ checks (trace r) = Z.of_nat k + 1
    /\ sleeps (trace r) = Z.of_nat k
    /\ world r = snd (check (world_at sleep k i check w)).
Proof.
  induction k as [|k IH]; intros n w Hn Hpre Hk.
  - destruct n as [|n]; [lia|]. cbn [world_at] in Hk |- *.
    cbn [poll]. destruct (check w) as [[done err] w1].
    cbn in Hk. inversion Hk; subst. cbn. repeat split.
  - destruct n as [|[|n]]; [lia|lia|].
    pose proof (Hpre O (Nat.lt_0_succ _)) as H0. cbn [world_at] in H0.
    rewrite (poll_retry _ _ _ _ H0). cbv zeta.
    destruct (IH (S n) (sleep i (snd (check w)))) as (Hr & Hc & Hs & Hw).
    { lia. }
    { intros j Hj. apply (Hpre (S j)). lia. }
    { exact Hk. }
    cbn [result world trace world_at].
    rewrite checks_cons_checked, checks_cons_slept, sleeps_cons_checked, sleeps_cons_slept.
    repeat split; [exact Hr | lia | lia | exact Hw].
Qed.

Lemma singleton_split {A : Type} (x y : A) (pre post : list A) :
  [x] = pre ++ y :: post -> pre = [] /\ x = y /\ post = [].
Proof.
  destruct pre as [|p pre]; cbn; intros H; inversion H; subst.
  - repeat split.
  - destruct pre; discriminate.
Qed.

(** Reading the trace: an invocation that is followed by anything asked
    for another attempt, and an invocation that reported an error is
    the last thing the wait did. *)
Lemma poll_trace (n : nat) (i : Z) (check : Probe) :
  forall (w : W) (pre post : list (event E)) (d : bool) (err : option E),
    trace (poll sleep n i check w) = pre ++ Checked d err :: post ->
    (post <> [] -> d = false /\ err = None)
    /\ (forall e, err = Some e ->
          post = [] /\ result (poll sleep n i check w) = Some (ProbeError e)).
Proof.
  induction n as [|n IH]; intros w pre post d err H.
  - cbn in H. destruct pre; discriminate.
  - cbn [poll] in H |- *. destruct (check w) as [[done e0] w1].
    destruct e0 as [e0|]; [|destruct done; [|destruct n as [|n]]].
    + cbn in H. apply singleton_split in H. destruct H as (_ & Hx & ->).
      inversion Hx; subst. split; [congruence|].
      intros e He. inversion He; subst. split; reflexivity.
    + cbn in H. apply singleton_split in H. destruct H as (_ & Hx & ->).
      inversion Hx; subst. split; [congruence|]. intros e He. discriminate.
    + cbn in H. apply singleton_split in H. destruct H as (_ & Hx & ->).
      inversion Hx; subst. split; [congruence|]. intros e He. discriminate.
    + cbn [trace result] in H |- *.
      destruct pre as [|p1 [|p2 pre]]; cbn in H; inversion H; subst.
      * split; [auto|]. intros e He. discriminate.
      * exact (IH _ _ _ _ _ H3).
Qed.

(** C3.  For every [maxAttempts >= 1] and every probe that answers
    [(false, nil)] at each of its first [maxAttempts] invocations,
    [wait.Until] invokes the probe exactly [maxAttempts] times and
    returns the timeout, which is none of the errors a probe can hand
    back. *)
Theorem Until_times_out (maxAttempts intervalMillis : Z) (check : Probe) (w : W) :
  1 <= maxAttempts ->
  (forall k, (k < Z.to_nat maxAttempts)%nat ->
     fst (check (world_at sleep k intervalMillis check w)) = (false, None)) ->
  let r := Until sleep maxAttempts intervalMillis check w in
  result r = Some TimeoutExhausted
  /\ checks (trace r) = maxAttempts
  /\ forall e, result r <> Some (ProbeError e).
Proof.
  intros Hmax Hcheck. unfold Until.
  destruct (Z.to_nat maxAttempts) as [|n] eqn:Hn; [lia|].
  destruct (poll_exhausted n intervalMillis check w) as (Hr & Hc & _ & _).
  { intros k Hk. apply Hcheck. lia. }
  cbv zeta. rewrite Hr, Hc. repeat split; [lia | discriminate].
Qed.

(** C4.  For every [maxAttempts >= 1] and whatever the probe answers: an
    invocation that hands back an error is the last thing the wait
    does, and the wait returns that very error; only an answer
    [(false, nil)] is followed by anything.  Put on the probe itself:
    when invocation [k] is the first to hand back an error, the wait
    returns it after [k + 1] invocations and leaves the world as that
    invocation left it. *)
Theorem Until_probe_error (maxAttempts intervalMillis : Z) (check : Probe) (w : W) :
  1 <= maxAttempts ->
  let r := Until sleep maxAttempts intervalMillis check w in
  (forall pre post d e,
      trace r = pre ++ Checked d (Some e) :: post ->
      post = [] /\ result r = Some (ProbeError e))
  /\ (forall pre post d err,
        trace r = pre ++ Checked d err :: post ->
        post <> [] -> d = false /\ err = None)
  /\ (forall k d e,
        (k < Z.to_nat maxAttempts)%nat ->
        (forall j, (j < k)%nat ->
           fst (check (world_at sleep j intervalMillis check w)) = (false, None)) ->
        fst (check (world_at sleep k intervalMillis check w)) = (d, Some e) ->
        result r = Some (ProbeError e)
        /\ checks (trace r) = Z.of_nat k + 1
        /\ world r = snd (check (world_at sleep k intervalMillis check w))).
Proof.
  intros _. cbv zeta. unfold Until. split; [|split].
  - intros pre post d e Htr.
    destruct (poll_trace _ _ _ _ _ _ _ _ Htr) as [_ Herr].
    exact (Herr e eq_refl).
  - intros pre post d err Htr Hpost.
    destruct (poll_trace _ _ _ _ _ _ _ _ Htr) as [Hnext _].
    exact (Hnext Hpost).
  - intros k d e Hk Hpre Herr.
    destruct (poll_abort k intervalMillis check _ w d e Hk Hpre Herr)
      as (Hr & Hc & _ & Hw).
    split; [exact Hr|]. split; [exact Hc | exact Hw].
Qed.

(** C5.  For every [maxAttempts >= 1] and [intervalMillis >= 0], a probe
    that answers [(true, nil)] at once makes [wait.Until] succeed after
    that one invocation, without any sleep; and with [maxAttempts = 1]
    the wait invokes the probe once and never sleeps, whatever the
    answer. *)
Theorem Until_done_at_once (maxAttempts intervalMillis : Z) (check : Probe) (w : W) :
  1 <= maxAttempts ->
  0 <= intervalMillis ->
  (fst (check w) = (true, None) ->
   let r := Until sleep maxAttempts intervalMillis check w in
   result r = None
   /\ trace r = [Checked true None]
   /\ checks (trace r) = 1
   /\ sleeps (trace r) = 0
   /\ world r = snd (check w))
  /\ (let r1 := Until sleep 1 intervalMillis check w in
      trace r1 = [Checked (fst (fst (check w))) (snd (fst (check w)))]
      /\ checks (trace r1) = 1
      /\ sleeps (trace r1) = 0
      /\ world r1 = snd (check w)).
Proof.
  intros Hmax _. split.
  - intros Hc. unfold Until.
    destruct (Z.to_nat maxAttempts) as [|n] eqn:Hn; [lia|].
    cbn [poll]. destruct (check w) as [[done err] w1].
    cbn in Hc. inversion Hc; subst. cbn. repeat split.
  - unfold Until. change (Z.to_nat 1) with 1%nat. cbn [poll].
    destruct (check w) as [[done [e|]] w1]; [|destruct done]; cbn; repeat split.
Qed.

End WaitFacts.

(** ** Facts about the resource's flows *)

Section ResourceFacts.

Context {R : Type}.
Variable elapse : Z -> R -> R.
Variable IsStatusNotFound : error -> bool.
Variable getKeyByTypeAndState :
  string -> string -> list EncryptionKey -> option EncryptionKey.
Variable flattenCustomerProvidedRootKey :
  ResourceData -> EncryptionKey -> option WrappingKey -> list RootKeyBlock.
Variable flattenEncryptionKeys : list EncryptionKey -> list EncryptionKeyBlock.
Variable value_String : option string -> option string.

Import encryptionkeymanager.

Let Sleep := Sleep elapse.
Let wait_Until := wait_Until elapse.

Lemma len_empty (s : string) : len s = 0 <-> s = EmptyString.
Proof.
  unfold len. destruct s; cbn [String.length]; split; intros H;
    try reflexivity; try discriminate; lia.
Qed.

Lemma len_pos (s : string) : (0 <? len s) = false <-> s = EmptyString.
Proof.
  rewrite <- len_empty. unfold len. rewrite Z.ltb_ge. lia.
Qed.

(** A wait at a call site ends with the probe's error at the first
    invocation that reports one. *)
Lemma wait_Until_abort (maxAttempts i : Z) (check : M R (bool * option error))
    (w : World R) (k : nat) (d : bool) (e : error) :
  (k < Z.to_nat maxAttempts)%nat ->
  (forall j, (j < k)%nat ->
     fst (check (wait.world_at Sleep j i check w)) = (false, None)) ->
  fst (check (wait.world_at Sleep k i check w)) = (d, Some e) ->
  wait_Until maxAttempts i check w
  = (Some e, snd (check (wait.world_at Sleep k i check w))).
Proof.
  intros Hk Hpre Herr. unfold wait_Until, encryptionkeymanager.wait_Until, wait.Until.
  destruct (poll_abort Sleep k i check _ w d e Hk Hpre Herr) as (Hr & _ & _ & Hw).
  cbv zeta in Hr, Hw. fold Sleep. rewrite Hr, Hw. reflexivity.
Qed.

(** A wait at a call site ends without an error at the first invocation
    that reports done. *)
Lemma wait_Until_succeeds (maxAttempts i : Z) (check : M R (bool * option error))
    (w : World R) (k : nat) :
  (k < Z.to_nat maxAttempts)%nat ->
  (forall j, (j < k)%nat ->
     fst (check (wait.world_at Sleep j i check w)) = (false, None)) ->
  fst (check (wait.world_at Sleep k i check w)) = (true, None) ->
  wait_Until maxAttempts i check w
  = (None, snd (check (wait.world_at Sleep k i check w))).
Proof.
  intros Hk Hpre Hdone. unfold wait_Until, encryptionkeymanager.wait_Until, wait.Until.
  destruct (poll_done Sleep k i check _ w Hk Hpre Hdone) as (Hr & _ & _ & Hw).
  cbv zeta in Hr, Hw. fold Sleep. rewrite Hr, Hw. reflexivity.
Qed.

(** What one read leaves in the list of calls. *)
Lemma invoke_Read (api : Management R) (keyID : string) (w : World R) :
  invoke (CallRead keyID) (EncryptionKey_Read api keyID) w
  = (fst (EncryptionKey_Read api keyID (remote w)),
     mkWorld (snd (EncryptionKey_Read api keyID (remote w)))
             (calls w ++ [CallRead keyID])).
Proof.
  unfold invoke. destruct (EncryptionKey_Read api keyID (remote w)); reflexivity.
Qed.

(** C1, as the code has it.  The probe of the deletion flow reports done
    exactly when the read succeeds with state "destroyed", and then
    without an error; a read that succeeds with another state is
    answered not-yet, without an error.  Every read error, whatever its
    kind, is handed back as the probe's error, and [removeKey] then ends
    with that error once the delete call has succeeded, without a
    further read; it ends without an error at the first read that shows
    the state "destroyed". *)
Theorem removeKey_check_destroyed (api : Management R) (keyID : string) (w : World R) :
  (fst (fst (removeKey_check api keyID w)) = true <->
   exists key, fst (EncryptionKey_Read api keyID (remote w)) = inl key
               /\ GetState key = "destroyed"%string)
  /\ (fst (removeKey_check api keyID w) = (true, None) <->
      exists key, fst (EncryptionKey_Read api keyID (remote w)) = inl key
                  /\ GetState key = "destroyed"%string)
  /\ (forall key, fst (EncryptionKey_Read api keyID (remote w)) = inl key ->
        GetState key <> "destroyed"%string ->
        fst (removeKey_check api keyID w) = (false, None))
  /\ (forall err, fst (EncryptionKey_Read api keyID (remote w)) = inr err ->
        fst (removeKey_check api keyID w) = (false, Some err))
  /\ calls (snd (removeKey_check api keyID w)) = calls w ++ [CallRead keyID]
  /\ (forall w1 k err,
        invoke (CallDelete keyID) (EncryptionKey_Delete api keyID) w = (None, w1) ->
        (k < 100)%nat ->
        (forall j, (j < k)%nat ->
           fst (removeKey_check api keyID
                  (wait.world_at Sleep j 20 (removeKey_check api keyID) w1))
           = (false, None)) ->
        fst (EncryptionKey_Read api keyID
               (remote (wait.world_at Sleep k 20 (removeKey_check api keyID) w1)))
        = inr err ->
        removeKey elapse api keyID w
        = (Some err,
           snd (removeKey_check api keyID
                  (wait.world_at Sleep k 20 (removeKey_check api keyID) w1))))
  /\ (forall w1 k key,
        invoke (CallDelete keyID) (EncryptionKey_Delete api keyID) w = (None, w1) ->
        (k < 100)%nat ->
        (forall j, (j < k)%nat ->
           fst (removeKey_check api keyID
                  (wait.world_at Sleep j 20 (removeKey_check api keyID) w1))
           = (false, None)) ->
        fst (EncryptionKey_Read api keyID
               (remote (wait.world_at Sleep k 20 (removeKey_check api keyID) w1)))
        = inl key ->
        GetState key = "destroyed"%string ->
        removeKey elapse api keyID w
        = (None,
           snd (removeKey_check api keyID
                  (wait.world_at Sleep k 20 (removeKey_check api keyID) w1)))).
Proof.
  assert (Hprobe : forall w',
    removeKey_check api keyID w'
    = (match fst (EncryptionKey_Read api keyID (remote w')) with
       | inl key => (String.eqb (GetState key) "destroyed", None)
       | inr err => (false, Some err)
       end,
       mkWorld (snd (EncryptionKey_Read api keyID (remote w')))
               (calls w' ++ [CallRead keyID]))).
  { intros w'. unfold removeKey_check. rewrite invoke_Read.
    destruct (fst (EncryptionKey_Read api keyID (remote w'))); reflexivity. }
  split; [|split; [|split; [|split; [|split; [|split]]]]].
  - rewrite Hprobe. cbn [fst]. split.
    + destruct (fst (EncryptionKey_Read api keyID (remote w))) as [key|err];
        cbn [fst]; intros H; [|discriminate].
      exists key. split; [reflexivity|]. apply String.eqb_eq. exact H.
    + intros (key & Hread & Hstate). rewrite Hread. cbn [fst].
      apply String.eqb_eq. exact Hstate.
  - rewrite Hprobe. cbn [fst]. split.
    + destruct (fst (EncryptionKey_Read api keyID (remote w))) as [key|err];
        intros H; [|discriminate].
      exists key. split; [reflexivity|]. apply String.eqb_eq. congruence.
    + intros (key & Hread & Hstate). rewrite Hread, Hstate. reflexivity.
  - intros key Hread Hstate. rewrite Hprobe, Hread. cbn [fst].
    apply String.eqb_neq in Hstate. rewrite Hstate. reflexivity.
  - intros err Hread. rewrite Hprobe, Hread. reflexivity.
  - rewrite Hprobe. reflexivity.
  - intros w1 k err Hdel Hk Hpre Hread. unfold removeKey. rewrite Hdel.
    apply (wait_Until_abort 100 20 _ w1 k false err).
    + change (Z.to_nat 100) with 100%nat. exact Hk.
    + exact Hpre.
    + rewrite Hprobe, Hread. reflexivity.
  - intros w1 k key Hdel Hk Hpre Hread Hstate. unfold removeKey. rewrite Hdel.
    apply (wait_Until_succeeds 100 20 _ w1 k).
    + change (Z.to_nat 100) with 100%nat. exact Hk.
    + exact Hpre.
    + rewrite Hprobe, Hread, Hstate. reflexivity.
Qed.

Lemma importWrappedKey_check_eq (api : Management R) (keyID : string) (w : World R) :
  importWrappedKey_check api keyID w
  = (match fst (EncryptionKey_Read api keyID (remote w)) with
     | inl key => (String.eqb (GetState key) "active", None)
     | inr err => (false, Some err)
     end,
     mkWorld (snd (EncryptionKey_Read api keyID (remote w)))
             (calls w ++ [CallRead keyID])).
Proof.
  unfold importWrappedKey_check. rewrite invoke_Read.
  destruct (fst (EncryptionKey_Read api keyID (remote w))); reflexivity.
Qed.

(** C6.  In the import flow the probe reads the key by its ID and
    reports done exactly when the read succeeds with state "active",
    and then without an error; a read that succeeds with another state
    is answered not-yet, without an error; a read error is the probe's
    error.  Once the import call has succeeded [importWrappedKey] ends
    with the first read error, and without an error at the first read
    that shows the state "active".  Nothing is polled when the import
    call itself fails. *)
Theorem importWrappedKey_check_active (api : Management R) (keyID : string)
    (wrappedKey : option string) (w : World R) :
  (fst (fst (importWrappedKey_check api keyID w)) = true <->
   exists key, fst (EncryptionKey_Read api keyID (remote w)) = inl key
               /\ GetState key = "active"%string)
  /\ (fst (importWrappedKey_check api keyID w) = (true, None) <->
      exists key, fst (EncryptionKey_Read api keyID (remote w)) = inl key
                  /\ GetState key = "active"%string)
  /\ (forall key, fst (EncryptionKey_Read api keyID (remote w)) = inl key ->
        GetState key <> "active"%string ->
        fst (importWrappedKey_check api keyID w) = (false, None))
  /\ (forall err, fst (EncryptionKey_Read api keyID (remote w)) = inr err ->
        fst (importWrappedKey_check api keyID w) = (false, Some err))
  /\ calls (snd (importWrappedKey_check api keyID w)) = calls w ++ [CallRead keyID]
  /\ (let encryptionKey :=
        mkEncryptionKey (Some keyID) None None None None None wrappedKey in
      let import :=
        invoke (CallImportWrappedKey encryptionKey)
               (EncryptionKey_ImportWrappedKey api encryptionKey) w in
      (forall err, fst import = Some err ->
         importWrappedKey elapse api keyID wrappedKey w = (Some err, snd import))
      /\ (forall k err,
            fst import = None ->
            (k < 100)%nat ->
            (forall j, (j < k)%nat ->
               fst (importWrappedKey_check api keyID
                      (wait.world_at Sleep j 20 (importWrappedKey_check api keyID)
                                     (snd import)))
               = (false, None)) ->
            fst (EncryptionKey_Read api keyID
                   (remote (wait.world_at Sleep k 20 (importWrappedKey_check api keyID)
                                          (snd import))))
            = inr err ->
            importWrappedKey elapse api keyID wrappedKey w
            = (Some err,
               snd (importWrappedKey_check api keyID
                      (wait.world_at Sleep k 20 (importWrappedKey_check api keyID)
                                     (snd import)))))
      /\ (forall k key,
            fst import = None ->
            (k < 100)%nat ->
            (forall j, (j < k)%nat ->
               fst (importWrappedKey_check api keyID
                      (wait.world_at Sleep j 20 (importWrappedKey_check api keyID)
                                     (snd import)))
               = (false, None)) ->
            fst (EncryptionKey_Read api keyID
                   (remote (wait.world_at Sleep k 20 (importWrappedKey_check api keyID)
                                          (snd import))))
            = inl key ->
            GetState key = "active"%string ->
            importWrappedKey elapse api keyID wrappedKey w
            = (None,
               snd (importWrappedKey_check api keyID
                      (wait.world_at Sleep k 20 (importWrappedKey_check api keyID)
                                     (snd import)))))).
Proof.
  split; [|split; [|split; [|split; [|split; [|split; [|split]]]]]].
  - rewrite importWrappedKey_check_eq. cbn [fst]. split.
    + destruct (fst (EncryptionKey_Read api keyID (remote w))) as [key|err];
        cbn [fst]; intros H; [|discriminate].
      exists key. split; [reflexivity|]. apply String.eqb_eq. exact H.
    + intros (key & Hread & Hstate). rewrite Hread. cbn [fst].
      apply String.eqb_eq. exact Hstate.
  - rewrite importWrappedKey_check_eq. cbn [fst]. split.
    + destruct (fst (EncryptionKey_Read api keyID (remote w))) as [key|err];
        intros H; [|discriminate].
      exists key. split; [reflexivity|]. apply String.eqb_eq. congruence.
    + intros (key & Hread & Hstate). rewrite Hread, Hstate. reflexivity.
  - intros key Hread Hstate. rewrite importWrappedKey_check_eq, Hread. cbn [fst].
    apply String.eqb_neq in Hstate. rewrite Hstate. reflexivity.
  - intros err Hread. rewrite importWrappedKey_check_eq, Hread. reflexivity.
  - rewrite importWrappedKey_check_eq. reflexivity.
  - intros err Himport. unfold importWrappedKey.
    destruct (invoke _ _ w) as [o w1]. cbn [fst snd] in *. subst o. reflexivity.
  - intros k err Himport Hk Hpre Hread. unfold importWrappedKey.
    destruct (invoke _ _ w) as [o w1]. cbn [fst snd] in *. subst o.
    apply (wait_Until_abort 100 20 _ w1 k false err).
    + change (Z.to_nat 100) with 100%nat. exact Hk.
    + exact Hpre.
    + rewrite importWrappedKey_check_eq, Hread. reflexivity.
  - intros k key Himport Hk Hpre Hread Hstate. unfold importWrappedKey.
    destruct (invoke _ _ w) as [o w1]. cbn [fst snd] in *. subst o.
    apply (wait_Until_succeeds 100 20 _ w1 k).
    + change (Z.to_nat 100) with 100%nat. exact Hk.
    + exact Hpre.
    + rewrite importWrappedKey_check_eq, Hread, Hstate. reflexivity.
Qed.

Lemma createRootKey_check_eq (api : Management R) (key : EncryptionKey) (w : World R) :
  createRootKey_check IsStatusNotFound api key w
  = (match fst (EncryptionKey_Read api (GetKID key) (remote w)) with
     | inl _ => (true, None)
     | inr err => if IsStatusNotFound err then (false, None) else (false, Some err)
     end,
     mkWorld (snd (EncryptionKey_Read api (GetKID key) (remote w)))
             (calls w ++ [CallRead (GetKID key)])).
Proof.
  unfold createRootKey_check. rewrite invoke_Read.
  destruct (fst (EncryptionKey_Read api (GetKID key) (remote w))) as [k|err];
    [reflexivity|]. destruct (IsStatusNotFound err); reflexivity.
Qed.

(** C2.  In the creation flow the probe answers not-yet, without an
    error, to a read that fails with not-found; it hands back any
    other read error; and it reports done as soon as the read
    succeeds.  Hence a wait of three attempts or more whose first two
    reads fail with not-found and whose third read succeeds, succeeds
    at the third invocation. *)
Theorem createRootKey_check_not_found (api : Management R) (key : EncryptionKey)
    (w : World R) :
  let check := createRootKey_check IsStatusNotFound api key in
  let read := fun w' => fst (EncryptionKey_Read api (GetKID key) (remote w')) in
  (forall err, read w = inr err -> IsStatusNotFound err = true ->
     fst (check w) = (false, None))
  /\ (forall err, read w = inr err -> IsStatusNotFound err = false ->
        fst (check w) = (false, Some err))
  /\ (forall found, read w = inl found -> fst (check w) = (true, None))
  /\ (forall maxAttempts intervalMillis err1 err2 found,
        3 <= maxAttempts ->
        read w = inr err1 -> IsStatusNotFound err1 = true ->
        read (wait.world_at Sleep 1 intervalMillis check w) = inr err2 ->
        IsStatusNotFound err2 = true ->
        read (wait.world_at Sleep 2 intervalMillis check w) = inl found ->
        let r := wait.Until Sleep maxAttempts intervalMillis check w in
        wait.result r = None
        /\ wait.checks (wait.trace r) = 3
        /\ wait.sleeps (wait.trace r) = 2
        /\ wait.world r = snd (check (wait.world_at Sleep 2 intervalMillis check w))).
Proof.
  cbv zeta. split; [|split; [|split]].
  - intros err Hread Hnf. rewrite createRootKey_check_eq, Hread. cbn [fst].
    rewrite Hnf. reflexivity.
  - intros err Hread Hnf. rewrite createRootKey_check_eq, Hread. cbn [fst].
    rewrite Hnf. reflexivity.
  - intros found Hread. rewrite createRootKey_check_eq, Hread. reflexivity.
  - intros maxAttempts i err1 err2 found Hmax H0 Hnf0 H1 Hnf1 H2.
    unfold wait.Until.
    apply (poll_done Sleep 2 i (createRootKey_check IsStatusNotFound api key)
                     (Z.to_nat maxAttempts) w).
    + lia.
    + intros j Hj. destruct j as [|[|j]]; [| |lia].
      * cbn [wait.world_at]. rewrite createRootKey_check_eq, H0. cbn [fst].
        rewrite Hnf0. reflexivity.
      * rewrite createRootKey_check_eq, H1. cbn [fst]. rewrite Hnf1. reflexivity.
    + rewrite createRootKey_check_eq, H2. reflexivity.
Qed.

Lemma count_app (p : call -> bool) (a b : list call) :
  count p (a ++ b) = count p a + count p b.
Proof. unfold count. rewrite filter_app, length_app. lia. Qed.

Lemma count_single (p : call -> bool) (c : call) :
  count p [c] = if p c then 1 else 0.
Proof. unfold count. cbn [filter]. destruct (p c); reflexivity. Qed.

(** A probe whose calls are all outside [p] keeps a whole wait outside
    [p], as sleeping is outside it. *)
Lemma poll_calls (p : call -> bool) (i : Z) (check : M R (bool * option error)) :
  p (CallSleep i) = false ->
  (forall w, exists delta,
      calls (snd (check w)) = calls w ++ delta /\ count p delta = 0) ->
  forall n w, exists delta,
    calls (wait.world (wait.poll Sleep n i check w)) = calls w ++ delta
    /\ count p delta = 0.
Proof.
  intros Hsleep Hcheck. induction n as [|n IH]; intros w.
  - exists []. cbn. rewrite app_nil_r. split; reflexivity.
  - destruct (Hcheck w) as (d1 & Hd1 & Hc1).
    cbn [wait.poll]. destruct (check w) as [[done err] w1]. cbn [snd] in Hd1.
    destruct err as [e|]; [|destruct done; [|destruct n as [|n]]];
      try (exists d1; cbn [wait.world]; split; assumption).
    cbn [wait.world].
    destruct (IH (Sleep i w1)) as (d2 & Hd2 & Hc2).
    exists (d1 ++ CallSleep i :: d2). split.
    + rewrite Hd2. unfold Sleep, encryptionkeymanager.Sleep. cbn [calls].
      rewrite Hd1, <- !app_assoc. reflexivity.
    + rewrite count_app, Hc1.
      change (CallSleep i :: d2) with ([CallSleep i] ++ d2).
      rewrite count_app, count_single, Hsleep, Hc2. reflexivity.
Qed.

(** C7.  Once [Create] has succeeded and the wait for the key to become
    visible has succeeded, [createRootKey] fetches the public wrapping
    key by one call, made after the wait, and ends with what that call
    gave: the key and the wrapping key, or the error of the fetch.  No
    other fetch is made in the flow. *)
Theorem createRootKey_fetches_once (api : Management R) (w w1 w2 : World R)
    (key : EncryptionKey) :
  invoke (CallCreate newRootKey) (EncryptionKey_Create api newRootKey) w = (inl key, w1) ->
  wait_Until 100 20 (createRootKey_check IsStatusNotFound api key) w1 = (None, w2) ->
  let fetch := EncryptionKey_CreatePublicWrappingKey api (GetKID key) (remote w2) in
  let w3 := mkWorld (snd fetch) (calls w2 ++ [CallCreatePublicWrappingKey (GetKID key)]) in
  createRootKey elapse IsStatusNotFound api w
  = (match fst fetch with
     | inl wrappingKey => inl (key, wrappingKey)
     | inr err => inr err
     end, w3)
  /\ (forall err, fst fetch = inr err ->
        createRootKey elapse IsStatusNotFound api w = (inr err, w3))
  /\ count is_wrapping_fetch (calls w3) = count is_wrapping_fetch (calls w) + 1.
Proof.
  intros Hcreate Hwait. cbv zeta.
  assert (Hrun : createRootKey elapse IsStatusNotFound api w
    = (match fst (EncryptionKey_CreatePublicWrappingKey api (GetKID key) (remote w2)) with
       | inl wrappingKey => inl (key, wrappingKey)
       | inr err => inr err
       end,
       mkWorld (snd (EncryptionKey_CreatePublicWrappingKey api (GetKID key) (remote w2)))
               (calls w2 ++ [CallCreatePublicWrappingKey (GetKID key)]))).
  { unfold createRootKey. fold newRootKey. rewrite Hcreate.
    fold wait_Until. rewrite Hwait. unfold invoke.
    destruct (EncryptionKey_CreatePublicWrappingKey api (GetKID key) (remote w2))
      as [[wk|err] r3]; reflexivity. }
  split; [exact Hrun|split].
  - intros err Hfetch. rewrite Hrun, Hfetch. reflexivity.
  - cbn [calls].
    assert (Hw1 : calls w1 = calls w ++ [CallCreate newRootKey]).
    { unfold invoke in Hcreate.
      destruct (EncryptionKey_Create api newRootKey (remote w)) as [a r1].
      inversion Hcreate; subst. reflexivity. }
    destruct (poll_calls is_wrapping_fetch 20
                (createRootKey_check IsStatusNotFound api key) eq_refl) with
        (n := Z.to_nat 100) (w := w1) as (delta & Hdelta & Hcount).
    { intros w'. exists [CallRead (GetKID key)].
      rewrite createRootKey_check_eq. split; reflexivity. }
    unfold wait_Until, encryptionkeymanager.wait_Until, wait.Until in Hwait.
    fold Sleep in Hwait. apply (f_equal snd) in Hwait. cbn [snd] in Hwait.
    rewrite Hwait in Hdelta. rewrite Hdelta, Hw1.
    rewrite !count_app, Hcount, !count_single. cbn [is_wrapping_fetch]. lia.
Qed.

(** The listing makes [List] calls only. *)
Lemma listEncryptionKeys_calls (p : call -> bool) (api : Management R) :
  (forall page perPage, p (CallList page perPage) = false) ->
  forall fuel page keys w, exists delta,
    calls (snd (listEncryptionKeys fuel api page keys w)) = calls w ++ delta
    /\ count p delta = 0.
Proof.
  intros Hp. induction fuel as [|fuel IH]; intros page keys w.
  - exists []. cbn. rewrite app_nil_r. split; reflexivity.
  - cbn [listEncryptionKeys]. unfold invoke.
    destruct (EncryptionKey_List api page 5 (remote w)) as [[l|err] r1].
    + destruct (HasNext l).
      * destruct (IH (int_incr page) (keys ++ Keys l)
                     (mkWorld r1 (calls w ++ [CallList page 5])))
          as (d & Hd & Hc).
        exists (CallList page 5 :: d). split.
        -- rewrite Hd. cbn [calls]. rewrite <- app_assoc. reflexivity.
        -- change (CallList page 5 :: d) with ([CallList page 5] ++ d).
           rewrite count_app, count_single, Hp, Hc. reflexivity.
      * exists [CallList page 5]. split; [reflexivity|].
        rewrite count_single, Hp. reflexivity.
    + exists [CallList page 5]. split; [reflexivity|].
      rewrite count_single, Hp. reflexivity.
Qed.

Lemma readEncryptionKeyManager_world (fuel : nat) (api : Management R)
    (data : ResourceData) (w : World R) :
  snd (readEncryptionKeyManager getKeyByTypeAndState flattenCustomerProvidedRootKey
         flattenEncryptionKeys fuel api data w)
  = snd (listEncryptionKeys fuel api 0 [] w).
Proof.
  unfold readEncryptionKeyManager.
  destruct (listEncryptionKeys fuel api 0 [] w) as [[[keys|err]|] w1]; reflexivity.
Qed.

(** With an empty key ID or an empty public wrapping key, [update]
    takes neither the import branch nor the silent one. *)
Lemma too_early_conditions (rootKeyID rootKeyState publicWrappingKey : string) :
  rootKeyID = EmptyString \/ publicWrappingKey = EmptyString ->
  (0 <? len rootKeyID) && String.eqb rootKeyState "pre-activation"
    && (0 <? len publicWrappingKey) = false
  /\ (len rootKeyID =? 0) || (len publicWrappingKey =? 0) = true.
Proof.
  intros [-> | ->]; cbn.
  - split; reflexivity.
  - split.
    + rewrite andb_false_r. reflexivity.
    + rewrite orb_true_r. reflexivity.
Qed.

Let update :=
  updateEncryptionKeyManager elapse IsStatusNotFound getKeyByTypeAndState
    flattenCustomerProvidedRootKey flattenEncryptionKeys value_String.

(** The part of [update] after the rekey step, when a wrapped key is
    supplied too early and the root key block is new or changed. *)
Lemma update_too_early_gate (fuel : nat) (api : Management R) (data : ResourceData)
    (w0 w : World R) (blocks : list (option string)) (wk : string) :
  raw_customer_provided_root_key data = Some blocks ->
  blocks <> [] ->
  ForEachElement_wrapped_key value_String blocks None = Some wk ->
  Get_customer_provided_root_key_0 key_id data = EmptyString
  \/ Get_customer_provided_root_key_0 public_wrapping_key data = EmptyString ->
  IsNewResource data || HasChange_customer_provided_root_key data = true ->
  (rekey_due data = false /\ w = w0
   \/ rekey_due data = true
      /\ invoke CallRekey (EncryptionKey_Rekey api) w0 = (None, w)) ->
  update fuel api data w0 = (Some ([Errorf wrapped_key_too_early], data), w).
Proof.
  intros Hraw Hne Hwk Hempty Hgate Hrekey.
  destruct (too_early_conditions _ (Get_customer_provided_root_key_0 state data) _ Hempty)
    as [Hc1 Hc2].
  assert (Hlen : (Z.of_nat (List.length blocks) =? 0) = false).
  { destruct blocks; [congruence|]. reflexivity. }
  unfold update, updateEncryptionKeyManager.
  assert (Hstep :
    (if negb (IsNewResource data) && HasChange_key_rotation_id data
     then if 0 <? len (Get_key_rotation_id data)
          then invoke CallRekey (EncryptionKey_Rekey api) w0
          else (None, w0)
     else (None, w0)) = (None, w)).
  { unfold rekey_due in Hrekey.
    destruct (negb (IsNewResource data) && HasChange_key_rotation_id data);
      destruct (0 <? len (Get_key_rotation_id data)); cbn [andb] in Hrekey;
      destruct Hrekey as [[Hd Hw] | [Hd Hw]]; try discriminate;
      subst; try reflexivity; exact Hw. }
  rewrite Hstep, Hgate, Hraw. cbn [orb]. rewrite Hlen.
  destruct (GetChange_customer_provided_root_key_count data) as [o n].
  rewrite Hwk, Hc1, Hc2. reflexivity.
Qed.

(** The rekey step of [update] makes the [Rekey] call at most, and it
    is without error exactly when no rekey was due or the call went
    well. *)
Lemma update_rekey_step (api : Management R) (data : ResourceData) (w : World R) :
  exists o w1 d0,
    (if negb (IsNewResource data) && HasChange_key_rotation_id data
     then if 0 <? len (Get_key_rotation_id data)
          then invoke CallRekey (EncryptionKey_Rekey api) w
          else (None, w)
     else (None, w)) = (o, w1)
    /\ calls w1 = calls w ++ d0
    /\ count is_import d0 = 0
    /\ (o = None ->
        rekey_due data = false /\ w1 = w
        \/ rekey_due data = true
           /\ invoke CallRekey (EncryptionKey_Rekey api) w = (None, w1)).
Proof.
  unfold rekey_due.
  destruct (negb (IsNewResource data) && HasChange_key_rotation_id data);
    [destruct (0 <? len (Get_key_rotation_id data))|]; cbn [andb].
  - unfold invoke. destruct (EncryptionKey_Rekey api (remote w)) as [o r1].
    exists o, (mkWorld r1 (calls w ++ [CallRekey])), [CallRekey].
    repeat split. intros ->. right. split; reflexivity.
  - exists None, w, []. rewrite app_nil_r. repeat split. intros _. left. split; reflexivity.
  - exists None, w, []. rewrite app_nil_r. repeat split. intros _. left. split; reflexivity.
Qed.

(** C8, as the code has it.  A wrapped key supplied while the stored key
    ID or the stored public wrapping key is empty never leads to an
    import call.  When moreover the resource is new or its
    [customer_provided_root_key] block has changed, and the rekey step
    did not fail, [update] ends with the error that says the wrapped
    key must wait for the public wrapping key. *)
Theorem update_wrapped_key_too_early (fuel : nat) (api : Management R)
    (data : ResourceData) (w : World R) (blocks : list (option string)) (wk : string) :
  raw_customer_provided_root_key data = Some blocks ->
  blocks <> [] ->
  ForEachElement_wrapped_key value_String blocks None = Some wk ->
  Get_customer_provided_root_key_0 key_id data = EmptyString
  \/ Get_customer_provided_root_key_0 public_wrapping_key data = EmptyString ->
  count is_import (calls (snd (update fuel api data w))) = count is_import (calls w)
  /\ (IsNewResource data || HasChange_customer_provided_root_key data = true ->
      (rekey_due data = false ->
       update fuel api data w = (Some ([Errorf wrapped_key_too_early], data), w))
      /\ (rekey_due data = true ->
          forall w1,
            invoke CallRekey (EncryptionKey_Rekey api) w = (None, w1) ->
            update fuel api data w
            = (Some ([Errorf wrapped_key_too_early], data), w1))).
Proof.
  intros Hraw Hne Hwk Hempty. split.
  - destruct (update_rekey_step api data w) as (o & w1 & d0 & Hstep & Hcalls & Hcount & Hok).
    destruct o as [err|].
    + unfold update, updateEncryptionKeyManager. rewrite Hstep. cbn [snd].
      rewrite Hcalls, count_app, Hcount. lia.
    + destruct (IsNewResource data || HasChange_customer_provided_root_key data) eqn:Hgate.
      * rewrite (update_too_early_gate fuel api data w w1 blocks wk
                   Hraw Hne Hwk Hempty Hgate (Hok eq_refl)).
        cbn [snd]. rewrite Hcalls, count_app, Hcount. lia.
      * unfold update, updateEncryptionKeyManager. rewrite Hstep, Hgate.
        rewrite readEncryptionKeyManager_world.
        destruct (listEncryptionKeys_calls is_import api (fun _ _ => eq_refl)
                    fuel 0 [] w1) as (d & Hd & Hc).
        rewrite Hd, Hcalls, !count_app, Hcount, Hc. lia.
  - intros Hgate. split.
    + intros Hdue.
      apply (update_too_early_gate fuel api data w w blocks wk Hraw Hne Hwk Hempty Hgate).
      left. split; [exact Hdue | reflexivity].
    + intros Hdue w1 Hcall.
      apply (update_too_early_gate fuel api data w w1 blocks wk Hraw Hne Hwk Hempty Hgate).
      right. split; [exact Hdue | exact Hcall].
Qed.

Let read :=
  readEncryptionKeyManager (R := R) getKeyByTypeAndState
    flattenCustomerProvidedRootKey flattenEncryptionKeys.

(** C9.  Let [getKeyByTypeAndState] return a key of the list with the
    type and the state asked for when there is one, and nil when there
    is none.  Then a read that finds a [customer_provided_root_key]
    block in the state writes back a listed customer provided root key
    in state "pre-activation" when there is one, otherwise one in
    state "active" when there is one, and otherwise leaves the block
    as it was. *)
Theorem read_prefers_pre_activation
    (Hsound : forall keyType keyState keys key,
        getKeyByTypeAndState keyType keyState keys = Some key ->
        In key keys /\ GetType key = keyType /\ GetState key = keyState)
    (Hcomplete : forall keyType keyState keys,
        getKeyByTypeAndState keyType keyState keys = None ->
        forall key, In key keys ->
                    ~ (GetType key = keyType /\ GetState key = keyState))
    (fuel : nat) (api : Management R) (data : ResourceData) (w w1 : World R)
    (keys : list EncryptionKey) :
  listEncryptionKeys fuel api 0 [] w = (Some (inl keys), w1) ->
  0 < Get_customer_provided_root_key_count data ->
  let is_root (keyState : string) (key : EncryptionKey) :=
    GetType key = "customer-provided-root-key"%string /\ GetState key = keyState in
  exists data',
    read fuel api data w = (Some ([], data'), w1)
    /\ ((exists key, In key keys /\ is_root "pre-activation"%string key
                     /\ Get_customer_provided_root_key data'
                        = flattenCustomerProvidedRootKey data key None)
        \/ ((forall key, In key keys -> ~ is_root "pre-activation"%string key)
            /\ exists key, In key keys /\ is_root "active"%string key
                           /\ Get_customer_provided_root_key data'
                              = flattenCustomerProvidedRootKey data key None)
        \/ ((forall key, In key keys -> ~ is_root "pre-activation"%string key)
            /\ (forall key, In key keys -> ~ is_root "active"%string key)
            /\ set_customer_provided_root_key data'
               = set_customer_provided_root_key data
            /\ Get_customer_provided_root_key data'
               = Get_customer_provided_root_key data)).
Proof.
  intros Hlist Hcount is_root. subst is_root.
  unfold read, readEncryptionKeyManager. rewrite Hlist.
  apply Z.ltb_lt in Hcount. rewrite Hcount.
  destruct (getKeyByTypeAndState "customer-provided-root-key" "pre-activation" keys)
    as [pre|] eqn:Hpre.
  - eexists. split; [reflexivity|]. left. exists pre.
    destruct (Hsound _ _ _ _ Hpre) as (Hin & Ht & Hs).
    repeat split; assumption.
  - pose proof (Hcomplete _ _ _ Hpre) as Hnone.
    destruct (getKeyByTypeAndState "customer-provided-root-key" "active" keys)
      as [act|] eqn:Hact.
    + eexists. split; [reflexivity|]. right. left. split; [exact Hnone|].
      exists act. destruct (Hsound _ _ _ _ Hact) as (Hin & Ht & Hs).
      repeat split; assumption.
    + eexists. split; [reflexivity|]. right. right.
      split; [exact Hnone|]. split; [exact (Hcomplete _ _ _ Hact)|].
      split; reflexivity.
Qed.

Lemma removeKey_calls (api : Management R) (keyID : string) (w : World R) :
  exists rest,
    calls (snd (removeKey elapse api keyID w)) = calls w ++ CallDelete keyID :: rest.
Proof.
  unfold removeKey, invoke.
  destruct (EncryptionKey_Delete api keyID (remote w)) as [[err|] r1].
  - exists []. reflexivity.
  - destruct (poll_calls (fun _ => false) 20 (removeKey_check api keyID) eq_refl)
      with (n := Z.to_nat 100) (w := mkWorld r1 (calls w ++ [CallDelete keyID]))
      as (delta & Hdelta & _).
    { intros w'. exists [CallRead keyID]. unfold removeKey_check.
      rewrite invoke_Read.
      destruct (fst (EncryptionKey_Read api keyID (remote w'))); split; reflexivity. }
    exists delta. unfold encryptionkeymanager.wait_Until, wait.Until. cbn [snd].
    fold Sleep. rewrite Hdelta. cbn [calls]. rewrite <- app_assoc. reflexivity.
Qed.

(** C10.  Deleting the resource when no key ID is recorded makes no
    remote call, does not wait, gives no diagnostic and leaves the
    world as it was.  With a key ID recorded the delete is that of
    [removeKey], which starts with the remote delete call; hence a
    delete that changes the world had a key ID recorded. *)
Theorem delete_without_key (api : Management R) (data : ResourceData) (w : World R) :
  let rootKeyID := Get_customer_provided_root_key_0 key_id data in
  (rootKeyID = EmptyString -> deleteEncryptionKeyManager elapse api data w = ([], w))
  /\ (rootKeyID <> EmptyString ->
      deleteEncryptionKeyManager elapse api data w
      = (FromErr (fst (removeKey elapse api rootKeyID w)),
         snd (removeKey elapse api rootKeyID w))
      /\ exists rest,
          calls (snd (deleteEncryptionKeyManager elapse api data w))
          = calls w ++ CallDelete rootKeyID :: rest)
  /\ (snd (deleteEncryptionKeyManager elapse api data w) <> w ->
      rootKeyID <> EmptyString).
Proof.
  cbv zeta. unfold deleteEncryptionKeyManager.
  destruct (0 <? len (Get_customer_provided_root_key_0 key_id data)) eqn:Hlen.
  - assert (Hne : Get_customer_provided_root_key_0 key_id data <> EmptyString).
    { intros Heq. apply len_pos in Heq. congruence. }
    split; [intros Heq; contradiction|]. split; [|intros _; exact Hne].
    intros _.
    destruct (removeKey_calls api (Get_customer_provided_root_key_0 key_id data) w)
      as (rest & Hrest).
    destruct (removeKey elapse api (Get_customer_provided_root_key_0 key_id data) w)
      as [err w1].
    split; [reflexivity|]. exists rest. exact Hrest.
  - apply len_pos in Hlen. split; [intros _; reflexivity|].
    split; [intros Hne; contradiction|]. intros Hw. contradiction Hw. reflexivity.
Qed.

End ResourceFacts.

(** ** The facts at work on the scripted tenant *)

(** Three attempts against a probe that says not-yet three times. *)
Lemma Until_times_out_witness :
  let check := Scripted.probe (E := string) in
  let w := [(false, None); (false, None); (false, None); (true, None)] in
  1 <= 3
  /\ (forall k, (k < Z.to_nat 3)%nat ->
        fst (check (wait.world_at Scripted.idle k 10 check w)) = (false, None))
  /\ (let r := wait.Until Scripted.idle 3 10 check w in
      wait.result r = Some wait.TimeoutExhausted
      /\ wait.checks (wait.trace r) = 3
      /\ forall e, wait.result r <> Some (wait.ProbeError e)).
Proof.
  intros check w.
  assert (H1 : 1 <= 3) by (intros H; discriminate H).
  assert (H2 : forall k, (k < Z.to_nat 3)%nat ->
            fst (check (wait.world_at Scripted.idle k 10 check w)) = (false, None)).
  { intros k Hk. destruct k as [|[|[|k]]]; try reflexivity.
    exfalso. change (Z.to_nat 3) with 3%nat in Hk. lia. }
  exact (conj H1 (conj H2 (Until_times_out Scripted.idle 3 10 check w H1 H2))).
Defined.

(** A probe whose second answer is an error. *)
Lemma Until_probe_error_witness :
  let check := Scripted.probe (E := string) in
  let w := [(false, None); (false, Some "boom"%string); (true, None)] in
  let r := wait.Until Scripted.idle 5 10 check w in
  1 <= 5
  /\ wait.result r = Some (wait.ProbeError "boom"%string)
  /\ wait.checks (wait.trace r) = 2
  /\ wait.world r = [(true, None)].
Proof.
  intros check w r.
  assert (H1 : 1 <= 5) by (intros H; discriminate H).
  split; [exact H1|].
  destruct (Until_probe_error Scripted.idle 5 10 check w H1) as (_ & _ & H3).
  apply (H3 1%nat false "boom"%string).
  - change (Z.to_nat 5) with 5%nat. lia.
  - intros j Hj. destruct j as [|j]; [reflexivity | lia].
  - reflexivity.
Defined.

(** A probe that is done at once. *)
Lemma Until_done_at_once_witness :
  let check := Scripted.probe (E := string) in
  let w := [(true, None); (false, None)] in
  let r := wait.Until Scripted.idle 4 10 check w in
  1 <= 4 /\ 0 <= 10 /\ fst (check w) = (true, None)
  /\ wait.result r = None
  /\ wait.trace r = [wait.Checked true None]
  /\ wait.checks (wait.trace r) = 1
  /\ wait.sleeps (wait.trace r) = 0
  /\ wait.world r = [(false, None)].
Proof.
  intros check w r.
  assert (H1 : 1 <= 4) by (intros H; discriminate H).
  assert (H2 : 0 <= 10) by (intros H; discriminate H).
  split; [exact H1|]. split; [exact H2|]. split; [reflexivity|].
  exact (proj1 (Until_done_at_once Scripted.idle 4 10 check w H1 H2) eq_refl).
Defined.

(** The scripted [getKeyByTypeAndState] keeps the contract C9 asks for. *)
Lemma Scripted_getKey_sound (keyType keyState : string) (keys : list EncryptionKey)
    (key : EncryptionKey) :
  Scripted.getKeyByTypeAndState keyType keyState keys = Some key ->
  In key keys /\ GetType key = keyType /\ GetState key = keyState.
Proof.
  unfold Scripted.getKeyByTypeAndState. intros H.
  apply find_some in H. destruct H as [Hin Hb].
  apply andb_true_iff in Hb. destruct Hb as [Ht Hs].
  apply String.eqb_eq in Ht. apply String.eqb_eq in Hs. auto.
Qed.

Lemma Scripted_getKey_complete (keyType keyState : string) (keys : list EncryptionKey) :
  Scripted.getKeyByTypeAndState keyType keyState keys = None ->
  forall key, In key keys -> ~ (GetType key = keyType /\ GetState key = keyState).
Proof.
  unfold Scripted.getKeyByTypeAndState. intros H key Hin [Ht Hs].
  pose proof (find_none _ _ H key Hin) as Hb. cbv beta in Hb.
  rewrite Ht, Hs, !String.eqb_refl in Hb. discriminate.
Qed.

(** A deletion whose second read is refused. *)
Lemma removeKey_check_destroyed_witness :
  let w := Scripted.tenant [inl (Scripted.key "kid-1" Scripted.root "active");
                            inr Scripted.forbidden] in
  let run := encryptionkeymanager.removeKey Scripted.idle Scripted.api "kid-1" w in
  fst run = Some Scripted.forbidden
  /\ calls (snd run)
     = [CallDelete "kid-1"; CallRead "kid-1"; CallSleep 20; CallRead "kid-1"].
Proof.
  intros w run.
  destruct (removeKey_check_destroyed Scripted.idle Scripted.api "kid-1" w)
    as (_ & _ & _ & _ & _ & H4 & _).
  assert (Hrun : run = (Some Scripted.forbidden,
                        snd (encryptionkeymanager.removeKey_check Scripted.api "kid-1"
                               (wait.world_at (encryptionkeymanager.Sleep Scripted.idle) 1 20
                                  (encryptionkeymanager.removeKey_check Scripted.api "kid-1")
                                  (snd (invoke (CallDelete "kid-1")
                                          (EncryptionKey_Delete Scripted.api "kid-1") w)))))).
  { apply (H4 _ 1%nat Scripted.forbidden eq_refl).
    - lia.
    - intros j Hj. destruct j as [|j]; [reflexivity | lia].
    - reflexivity. }
  rewrite Hrun. split; reflexivity.
Defined.

(** An import whose second read is refused. *)
Lemma importWrappedKey_check_active_witness :
  let w := Scripted.tenant [inl (Scripted.key "kid-1" Scripted.root "pre-activation");
                            inr Scripted.forbidden] in
  let run := encryptionkeymanager.importWrappedKey Scripted.idle Scripted.api "kid-1"
               (Some "abc"%string) w in
  fst run = Some Scripted.forbidden
  /\ calls (snd run)
     = [CallImportWrappedKey
          (mkEncryptionKey (Some "kid-1"%string) None None None None None (Some "abc"%string));
        CallRead "kid-1"; CallSleep 20; CallRead "kid-1"].
Proof.
  intros w run.
  destruct (importWrappedKey_check_active Scripted.idle Scripted.api "kid-1"
              (Some "abc"%string) w) as (_ & _ & _ & _ & _ & _ & H5 & _).
  assert (Hrun : run = (Some Scripted.forbidden,
    snd (encryptionkeymanager.importWrappedKey_check Scripted.api "kid-1"
           (wait.world_at (encryptionkeymanager.Sleep Scripted.idle) 1 20
              (encryptionkeymanager.importWrappedKey_check Scripted.api "kid-1")
              (snd (invoke (CallImportWrappedKey
                              (mkEncryptionKey (Some "kid-1"%string) None None None None None
                                               (Some "abc"%string)))
                           (EncryptionKey_ImportWrappedKey Scripted.api
                              (mkEncryptionKey (Some "kid-1"%string) None None None None None
                                               (Some "abc"%string))) w)))))).
  { apply (H5 1%nat Scripted.forbidden eq_refl).
    - lia.
    - intros j Hj. destruct j as [|j]; [reflexivity | lia].
    - reflexivity. }
  rewrite Hrun. split; reflexivity.
Defined.

(** A creation whose key shows at the third read. *)
Lemma createRootKey_check_not_found_witness :
  let key := Scripted.key "kid-1" Scripted.root "pre-activation" in
  let w := Scripted.tenant [inr Scripted.notFound; inr Scripted.notFound; inl key] in
  let check := encryptionkeymanager.createRootKey_check Scripted.IsStatusNotFound
                 Scripted.api key in
  let r := wait.Until (encryptionkeymanager.Sleep Scripted.idle) 100 20 check w in
  wait.result r = None
  /\ wait.checks (wait.trace r) = 3
  /\ wait.sleeps (wait.trace r) = 2
  /\ calls (wait.world r)
     = [CallRead "kid-1"; CallSleep 20; CallRead "kid-1"; CallSleep 20; CallRead "kid-1"].
Proof.
  intros key w check r.
  destruct (createRootKey_check_not_found Scripted.idle Scripted.IsStatusNotFound
              Scripted.api key w) as (_ & _ & _ & H4).
  destruct (H4 100 20 Scripted.notFound Scripted.notFound key) as (Hr & Hc & Hs & Hw);
    try reflexivity.
  { intros H; discriminate H. }
  split; [exact Hr|]. split; [exact Hc|]. split; [exact Hs|].
  fold check in Hw. fold w in Hw. fold r in Hw. rewrite Hw. reflexivity.
Defined.

(** A creation whose wrapping key cannot be fetched: one fetch, made
    after the wait, and its error handed back. *)
Lemma createRootKey_fetches_once_witness :
  let key := Scripted.key "kid-1" Scripted.root "pre-activation" in
  let w := Scripted.tenant_no_wrapping [inr Scripted.notFound; inl key] in
  let run := encryptionkeymanager.createRootKey Scripted.idle Scripted.IsStatusNotFound
               Scripted.api w in
  fst run = inr Scripted.forbidden
  /\ calls (snd run)
     = [CallCreate encryptionkeymanager.newRootKey; CallRead "kid-1"; CallSleep 20;
        CallRead "kid-1"; CallCreatePublicWrappingKey "kid-1"]
  /\ encryptionkeymanager.count encryptionkeymanager.is_wrapping_fetch (calls (snd run)) = 1.
Proof.
  intros key w run.
  pose (w1 := snd (invoke (CallCreate encryptionkeymanager.newRootKey)
                     (EncryptionKey_Create Scripted.api encryptionkeymanager.newRootKey) w)).
  pose (w2 := snd (encryptionkeymanager.wait_Until Scripted.idle 100 20
                     (encryptionkeymanager.createRootKey_check Scripted.IsStatusNotFound
                        Scripted.api key) w1)).
  assert (H1 : invoke (CallCreate encryptionkeymanager.newRootKey)
                 (EncryptionKey_Create Scripted.api encryptionkeymanager.newRootKey) w
               = (inl key, w1)) by (vm_compute; reflexivity).
  assert (H2 : encryptionkeymanager.wait_Until Scripted.idle 100 20
                 (encryptionkeymanager.createRootKey_check Scripted.IsStatusNotFound
                    Scripted.api key) w1
               = (None, w2)) by (vm_compute; reflexivity).
  destruct (createRootKey_fetches_once Scripted.idle Scripted.IsStatusNotFound
              Scripted.api w w1 w2 key H1 H2) as (Hrun & _ & _).
  fold run in Hrun. rewrite Hrun. vm_compute. repeat split.
Defined.

(** A new resource whose block comes with a wrapped key. *)
Lemma update_wrapped_key_too_early_witness :
  let w := Scripted.tenant [] in
  raw_customer_provided_root_key Scripted.early_new = Some [Some "abc"%string]
  /\ Get_customer_provided_root_key_0 key_id Scripted.early_new = EmptyString
  /\ Scripted.update 3 Scripted.api Scripted.early_new w
     = (Some ([Errorf encryptionkeymanager.wrapped_key_too_early], Scripted.early_new), w).
Proof.
  intros w. split; [reflexivity|]. split; [reflexivity|].
  destruct (update_wrapped_key_too_early Scripted.idle Scripted.IsStatusNotFound
              Scripted.getKeyByTypeAndState Scripted.flattenCustomerProvidedRootKey
              Scripted.flattenEncryptionKeys Scripted.value_String
              3%nat Scripted.api Scripted.early_new w [Some "abc"%string] "abc"%string)
    as [_ Hgate].
  - reflexivity.
  - discriminate.
  - reflexivity.
  - left. reflexivity.
  - destruct (Hgate eq_refl) as [Hnew _]. exact (Hnew eq_refl).
Defined.

(** A listing with an active and a pre-activation root key: the one in
    pre-activation is written back. *)
Lemma read_prefers_pre_activation_witness :
  let keys := [Scripted.key "kid-0" Scripted.root "active";
               Scripted.key "kid-1" Scripted.root "pre-activation";
               Scripted.key "kid-2" "tenant-master-key" "active"] in
  let w := Scripted.tenant_listing keys in
  exists data' w1,
    Scripted.read 2 Scripted.api Scripted.pending w = (Some ([], data'), w1)
    /\ Get_customer_provided_root_key data'
       = Scripted.flattenCustomerProvidedRootKey Scripted.pending
           (Scripted.key "kid-1" Scripted.root "pre-activation") None.
Proof.
  intros keys w.
  pose (w1 := snd (encryptionkeymanager.listEncryptionKeys 2 Scripted.api 0 [] w)).
  assert (Hlist : encryptionkeymanager.listEncryptionKeys 2 Scripted.api 0 [] w
                  = (Some (inl keys), w1)) by (vm_compute; reflexivity).
  assert (Hcount : 0 < Get_customer_provided_root_key_count Scripted.pending)
    by reflexivity.
  destruct (read_prefers_pre_activation Scripted.getKeyByTypeAndState
              Scripted.flattenCustomerProvidedRootKey Scripted.flattenEncryptionKeys
              Scripted_getKey_sound Scripted_getKey_complete
              2%nat Scripted.api Scripted.pending w w1 keys Hlist Hcount)
    as (data' & Hread & Hcases).
  exists data', w1. split; [exact Hread|].
  assert (Hin : In (Scripted.key "kid-1" Scripted.root "pre-activation") keys)
    by (right; left; reflexivity).
  destruct Hcases as [(key & Hk & [Ht Hs] & Hget) | [[Hno _] | [Hno _]]].
  - destruct Hk as [<- | [<- | [<- | []]]].
    + discriminate Hs.
    + exact Hget.
    + discriminate Ht.
  - exfalso. apply (Hno _ Hin). split; reflexivity.
  - exfalso. apply (Hno _ Hin). split; reflexivity.
Defined.

(** A delete with no key recorded. *)
Lemma delete_without_key_witness :
  let w := Scripted.tenant [] in
  Get_customer_provided_root_key_0 key_id Scripted.plain = EmptyString
  /\ encryptionkeymanager.deleteEncryptionKeyManager Scripted.idle Scripted.api
       Scripted.plain w = ([], w).
Proof.
  intros w. split; [reflexivity|].
  exact (proj1 (delete_without_key Scripted.idle Scripted.api Scripted.plain w) eq_refl).
Defined.

(** Against C1 as stated: the key is gone, the read fails with not-found,
    and the probe of the deletion flow does not report done but hands
    the error back; the wait, and with it [removeKey], ends with it. *)
Lemma removeKey_not_found_counterexample :
  let w := Scripted.tenant [] in
  let check := encryptionkeymanager.removeKey_check Scripted.api "kid-1" in
  Scripted.IsStatusNotFound Scripted.notFound = true
  /\ fst (EncryptionKey_Read Scripted.api "kid-1" (remote w)) = inr Scripted.notFound
  /\ fst (check w) = (false, Some Scripted.notFound)
  /\ wait.result (wait.Until (encryptionkeymanager.Sleep Scripted.idle) 100 20 check w)
     = Some (wait.ProbeError Scripted.notFound)
  /\ fst (encryptionkeymanager.removeKey Scripted.idle Scripted.api "kid-1" w)
     = Some Scripted.notFound.
Proof.
  vm_compute. repeat split.
Qed.

(** Against C8 as stated: a wrapped key is supplied and the stored key ID
    is empty, yet [update] gives no diagnostic when the block has not
    changed, and gives the error of [Rekey] when that call is refused. *)
Lemma update_wrapped_key_counterexample :
  (ForEachElement_wrapped_key Scripted.value_String [Some "abc"%string] None
   = Some "abc"%string
   /\ raw_customer_provided_root_key Scripted.early_unchanged = Some [Some "abc"%string]
   /\ Get_customer_provided_root_key_0 key_id Scripted.early_unchanged = EmptyString
   /\ fst (Scripted.update 1 Scripted.api Scripted.early_unchanged (Scripted.tenant []))
      = Some ([], Scripted.early_unchanged))
  /\ (raw_customer_provided_root_key Scripted.early_rekey = Some [Some "abc"%string]
      /\ Get_customer_provided_root_key_0 key_id Scripted.early_rekey = EmptyString
      /\ fst (Scripted.update 1 Scripted.api Scripted.early_rekey Scripted.tenant_no_rekey)
         = Some ([Scripted.forbidden], Scripted.early_rekey)).
Proof.
  vm_compute. repeat split.
Qed.

(** ** Facts about [DiagnosticsFromError] *)

Section DiagnosticsFacts.

Import internal_error.

Variable ErrorFormat : list goerror -> option string.
Variable AddError : string -> string -> Diagnostics -> Diagnostics.

(** What the facts below ask of [AddError]: the collection it gives
    holds the new error diagnostic and what it held before, and nothing
    else. *)
Hypothesis AddError_holds :
  forall summary detail diags x,
    In x (AddError summary detail diags)
    <-> x = ErrorDiagnostic summary detail \/ In x diags.

Let text := Error_text ErrorFormat.
Let FromError := DiagnosticsFromError ErrorFormat AddError.
Let AddErrors := AddErrors ErrorFormat AddError.

Lemma AddErrors_members (errs : list goerror) :
  forall (acc diags : Diagnostics),
    AddErrors errs acc = Some diags ->
    forall x, In x diags
              <-> In x acc
                  \/ exists e t, In e errs /\ text e = Some t
                                 /\ x = ErrorDiagnostic "Error" t.
Proof.
  induction errs as [|e errs IH]; intros acc diags Hrun x;
    cbn [AddErrors internal_error.AddErrors] in Hrun.
  - inversion Hrun; subst. split; [auto|]. intros [H | (e & t & [] & _)]. exact H.
  - fold text in Hrun. destruct (text e) as [t|] eqn:Ht; [|discriminate].
    rewrite (IH _ _ Hrun x), AddError_holds. split.
    + intros [[Hx | Hacc] | (e' & t' & He' & Ht' & Hx)].
      * right. exists e, t. split; [left; reflexivity | split; assumption].
      * left. exact Hacc.
      * right. exists e', t'. split; [right; exact He' | split; assumption].
    + intros [Hacc | (e' & t' & [<- | He'] & Ht' & Hx)].
      * left. right. exact Hacc.
      * left. left. congruence.
      * right. exists e', t'. split; [exact He' | split; assumption].
Qed.

Lemma AddErrors_panics (errs : list goerror) :
  forall acc : Diagnostics,
    AddErrors errs acc = None <-> exists e, In e errs /\ text e = None.
Proof.
  induction errs as [|e errs IH]; intros acc; cbn [AddErrors internal_error.AddErrors].
  - split; [discriminate|]. intros (e & [] & _).
  - fold text. destruct (text e) as [t|] eqn:Ht.
    + fold (AddErrors errs (AddError "Error" t acc)). rewrite IH. split.
      * intros (e' & He' & Hn). exists e'. split; [right; exact He' | exact Hn].
      * intros (e' & [<- | He'] & Hn); [congruence|]. exists e'. split; assumption.
    + split; [|reflexivity]. intros _. exists e. split; [left; reflexivity | exact Ht].
Qed.

Lemma FromError_multi (e : goerror) (errs : list goerror) :
  FromError (Some (MultiError (e :: errs))) = AddErrors (e :: errs) [].
Proof. reflexivity. Qed.


(** X2.  [DiagnosticsFromError] returns without any diagnostic exactly
    for a nil error and for a [*multierror.Error] without errors; on a
    nil [*multierror.Error] pointer inside a non-nil interface it does
    not return but panics. *)
Theorem DiagnosticsFromError_empty (err : option goerror) :
  (FromError err = Some [] <-> err = None \/ err = Some (MultiError []))
  /\ FromError (Some NilMultiError) = None.
Proof.
  split; [|reflexivity]. split.
  - intros Hempty.
    destruct err as [[t | [|e errs] | ]|];
      [exfalso | right; reflexivity | exfalso | discriminate Hempty | left; reflexivity].
    + cbn in Hempty. inversion Hempty as [Hnil].
      assert (Hin : In (ErrorDiagnostic "Error" t) (AddError "Error" t [])).
      { apply AddError_holds. left. reflexivity. }
      rewrite Hnil in Hin. destruct Hin.
    + rewrite FromError_multi in Hempty.
      destruct (text e) as [t|] eqn:Ht.
      * assert (Hin : In (ErrorDiagnostic "Error" t) []).
        { apply (AddErrors_members _ _ _ Hempty). right.
          exists e, t. split; [left; reflexivity | split; [exact Ht | reflexivity]]. }
        destruct Hin.
      * assert (Hpanic : AddErrors (e :: errs) [] = None).
        { apply AddErrors_panics. exists e. split; [left; reflexivity | exact Ht]. }
        congruence.
  - intros [-> | ->]; reflexivity.
Qed.

End DiagnosticsFacts.

(** ** Facts about the flows and how [update] composes them *)

Section FlowFacts.

Context {R : Type}.
Variable elapse : Z -> R -> R.
Variable IsStatusNotFound : error -> bool.
Variable getKeyByTypeAndState :
  string -> string -> list EncryptionKey -> option EncryptionKey.
Variable flattenCustomerProvidedRootKey :
  ResourceData -> EncryptionKey -> option WrappingKey -> list RootKeyBlock.
Variable flattenEncryptionKeys : list EncryptionKey -> list EncryptionKeyBlock.
Variable value_String : option string -> option string.

Import encryptionkeymanager.
Import steps.

Let Sleep := Sleep elapse.
Let wait_Until := wait_Until elapse.
Let removeKey := removeKey elapse.
Let importWrappedKey := importWrappedKey elapse.
Let createRootKey := createRootKey elapse IsStatusNotFound.
Let read :=
  readEncryptionKeyManager (R := R) getKeyByTypeAndState
    flattenCustomerProvidedRootKey flattenEncryptionKeys.
Let update :=
  updateEncryptionKeyManager elapse IsStatusNotFound getKeyByTypeAndState
    flattenCustomerProvidedRootKey flattenEncryptionKeys value_String.

(** *** Which calls a flow makes *)

Lemma quiet_chain (p : call -> bool) (w w1 w2 : World R) (d1 d2 : list call) :
  calls w1 = calls w ++ d1 -> count p d1 = 0 ->
  calls w2 = calls w1 ++ d2 -> count p d2 = 0 ->
  exists delta, calls w2 = calls w ++ delta /\ count p delta = 0.
Proof.
  intros H1 C1 H2 C2. exists (d1 ++ d2). split.
  - rewrite H2, H1, app_assoc. reflexivity.
  - rewrite count_app, C1, C2. reflexivity.
Qed.

Lemma quiet_here (p : call -> bool) (w : World R) :
  exists delta, calls w = calls w ++ delta /\ count p delta = 0.
Proof. exists []. rewrite app_nil_r. split; reflexivity. Qed.

Lemma quiet_invoke {A : Type} (p : call -> bool) (c : call) (op : R -> A * R) :
  p c = false -> quiet p (invoke c op).
Proof.
  intros Hp w. exists [c]. unfold invoke. destruct (op (remote w)) as [a r].
  split; [reflexivity|]. rewrite count_single, Hp. reflexivity.
Qed.

Lemma quiet_wait_Until (p : call -> bool) (maxAttempts i : Z)
    (check : M R (bool * option error)) :
  p (CallSleep i) = false -> quiet p check -> quiet p (wait_Until maxAttempts i check).
Proof.
  intros Hs Hc w.
  exact (poll_calls elapse p i check Hs Hc (Z.to_nat maxAttempts) w).
Qed.

Lemma removeKey_check_eq (api : Management R) (keyID : string) (w : World R) :
  removeKey_check api keyID w
  = (match fst (EncryptionKey_Read api keyID (remote w)) with
     | inl key => (String.eqb (GetState key) "destroyed", None)
     | inr err => (false, Some err)
     end,
     mkWorld (snd (EncryptionKey_Read api keyID (remote w)))
             (calls w ++ [CallRead keyID])).
Proof.
  unfold removeKey_check. rewrite invoke_Read.
  destruct (fst (EncryptionKey_Read api keyID (remote w))); reflexivity.
Qed.

(** Hypotheses on a kind of calls, named for what they leave out. *)
Let no_read (p : call -> bool) : Prop := forall keyID, p (CallRead keyID) = false.
Let no_sleep (p : call -> bool) : Prop := forall ms, p (CallSleep ms) = false.
Let no_list (p : call -> bool) : Prop := forall page perPage, p (CallList page perPage) = false.
Let no_delete (p : call -> bool) : Prop := forall keyID, p (CallDelete keyID) = false.
Let no_import (p : call -> bool) : Prop := forall key, p (CallImportWrappedKey key) = false.
Let no_create (p : call -> bool) : Prop := forall key, p (CallCreate key) = false.
Let no_fetch (p : call -> bool) : Prop :=
  forall keyID, p (CallCreatePublicWrappingKey keyID) = false.

Lemma quiet_removeKey (p : call -> bool) (api : Management R) (keyID : string) :
  no_delete p -> no_read p -> no_sleep p -> quiet p (removeKey api keyID).
Proof.
  intros Hd Hr Hs w. unfold removeKey, encryptionkeymanager.removeKey.
  destruct (quiet_invoke p (CallDelete keyID) (EncryptionKey_Delete api keyID) (Hd _) w)
    as (d1 & H1 & C1).
  destruct (invoke (CallDelete keyID) (EncryptionKey_Delete api keyID) w) as [[err|] w1];
    cbn [snd] in H1 |- *.
  - exists d1. split; assumption.
  - destruct (quiet_wait_Until p 100 20 (removeKey_check api keyID) (Hs _)) with (w := w1)
      as (d2 & H2 & C2).
    { intros w'. exists [CallRead keyID]. rewrite removeKey_check_eq.
      split; [reflexivity|]. rewrite count_single, Hr. reflexivity. }
    exact (quiet_chain p w w1 _ d1 d2 H1 C1 H2 C2).
Qed.

Lemma quiet_importWrappedKey (p : call -> bool) (api : Management R) (keyID : string)
    (wrappedKey : option string) :
  no_import p -> no_read p -> no_sleep p ->
  quiet p (importWrappedKey api keyID wrappedKey).
Proof.
  intros Hi Hr Hs w. unfold importWrappedKey, encryptionkeymanager.importWrappedKey.
  cbv zeta.
  destruct (quiet_invoke p _ (EncryptionKey_ImportWrappedKey api
              (mkEncryptionKey (Some keyID) None None None None None wrappedKey))
              (Hi (mkEncryptionKey (Some keyID) None None None None None wrappedKey)) w)
    as (d1 & H1 & C1).
  destruct (invoke _ _ w) as [[err|] w1]; cbn [snd] in H1 |- *.
  - exists d1. split; assumption.
  - destruct (quiet_wait_Until p 100 20 (importWrappedKey_check api keyID) (Hs _))
      with (w := w1) as (d2 & H2 & C2).
    { intros w'. exists [CallRead keyID]. rewrite importWrappedKey_check_eq.
      split; [reflexivity|]. rewrite count_single, Hr. reflexivity. }
    exact (quiet_chain p w w1 _ d1 d2 H1 C1 H2 C2).
Qed.

Lemma quiet_createRootKey (p : call -> bool) (api : Management R) :
  no_create p -> no_read p -> no_sleep p -> no_fetch p -> quiet p (createRootKey api).
Proof.
  intros Hc Hr Hs Hf w. unfold createRootKey, encryptionkeymanager.createRootKey.
  cbv zeta. fold newRootKey.
  destruct (quiet_invoke p _ (EncryptionKey_Create api newRootKey) (Hc newRootKey) w)
    as (d1 & H1 & C1).
  destruct (invoke _ _ w) as [[key|err] w1]; cbn [snd] in H1 |- *.
  - destruct (quiet_wait_Until p 100 20 (createRootKey_check IsStatusNotFound api key)
                (Hs _)) with (w := w1) as (d2 & H2 & C2).
    { intros w'. exists [CallRead (GetKID key)]. rewrite createRootKey_check_eq.
      split; [reflexivity|]. rewrite count_single, Hr. reflexivity. }
    destruct (quiet_chain p w w1 _ d1 d2 H1 C1 H2 C2) as (d12 & H12 & C12).
    fold wait_Until.
    destruct (wait_Until 100 20 (createRootKey_check IsStatusNotFound api key) w1)
      as [[err|] w2]; cbn [snd] in H12, H2 |- *.
    + exists d12. split; assumption.
    + destruct (quiet_invoke p _ (EncryptionKey_CreatePublicWrappingKey api (GetKID key))
                  (Hf (GetKID key)) w2) as (d3 & H3 & C3).
      destruct (invoke _ _ w2) as [[wk|err] w3]; cbn [snd] in H3 |- *;
        exact (quiet_chain p w w2 w3 d12 d3 H12 C12 H3 C3).
  - exists d1. split; assumption.
Qed.

Lemma quiet_read (p : call -> bool) (fuel : nat) (api : Management R)
    (data : ResourceData) :
  no_list p -> quiet p (read fuel api data).
Proof.
  intros Hl w. unfold read. rewrite readEncryptionKeyManager_world.
  exact (listEncryptionKeys_calls p api Hl fuel 0 [] w).
Qed.

(** *** [update] as the sequence of its steps *)

Let rekeyStep := rekeyStep (R := R).
Let wrappedKeyStep := wrappedKeyStep elapse value_String.
Let createStep := createStep elapse IsStatusNotFound flattenCustomerProvidedRootKey.
Let rootKeyStep :=
  rootKeyStep elapse IsStatusNotFound flattenCustomerProvidedRootKey value_String.
Let config_wrapped_key := config_wrapped_key value_String.

Lemma update_steps (fuel : nat) (api : Management R) (data : ResourceData) (w : World R) :
  update fuel api data w
  = match rekeyStep api data w with
    | (Some err, w1) => (Some ([err], data), w1)
    | (None, w1) =>
        match rootKeyStep api data w1 with
        | ((Some err, data1), w4) => (Some ([err], data1), w4)
        | ((None, data1), w4) => read fuel api data1 w4
        end
    end.
Proof.
  unfold update, updateEncryptionKeyManager, rekeyStep, steps.rekeyStep.
  destruct (if negb (IsNewResource data) && HasChange_key_rotation_id data
            then if 0 <? len (Get_key_rotation_id data)
                 then invoke CallRekey (EncryptionKey_Rekey api) w
                 else (None, w)
            else (None, w)) as [[err|] w1]; [reflexivity|].
  unfold rootKeyStep, steps.rootKeyStep, steps.wrappedKeyStep, steps.createStep,
    steps.block_absent, steps.config_wrapped_key, steps.import_due, steps.too_early,
    steps.create_due.
  destruct (IsNewResource data || HasChange_customer_provided_root_key data);
    [|reflexivity].
  destruct (GetChange_customer_provided_root_key_count data) as [o n]. cbn [fst snd].
  destruct (raw_customer_provided_root_key data) as [blocks|]; cbn [orb].
  - destruct (Z.of_nat (List.length blocks) =? 0).
    + destruct (0 <? len (Get_customer_provided_root_key_0 key_id data)); [|reflexivity].
      destruct (encryptionkeymanager.removeKey elapse api
                  (Get_customer_provided_root_key_0 key_id data) w1) as [[err|] w2];
        reflexivity.
    + destruct (ForEachElement_wrapped_key value_String blocks None) as [wk|].
      * destruct ((0 <? len (Get_customer_provided_root_key_0 key_id data))
                  && String.eqb (Get_customer_provided_root_key_0 state data) "pre-activation"
                  && (0 <? len (Get_customer_provided_root_key_0 public_wrapping_key data))).
        -- destruct (encryptionkeymanager.importWrappedKey elapse api
                       (Get_customer_provided_root_key_0 key_id data) (Some wk) w1)
             as [[err|] w2]; [reflexivity|].
           destruct ((len (Get_customer_provided_root_key_0 key_id data) =? 0)
                     || (o =? 0) && (n =? 1)); [|reflexivity].
           destruct (encryptionkeymanager.createRootKey elapse IsStatusNotFound api w2)
             as [[[k wk']|err] w3]; reflexivity.
        -- destruct ((len (Get_customer_provided_root_key_0 key_id data) =? 0)
                     || (len (Get_customer_provided_root_key_0 public_wrapping_key data) =? 0));
             [reflexivity|].
           destruct ((len (Get_customer_provided_root_key_0 key_id data) =? 0)
                     || (o =? 0) && (n =? 1)); [|reflexivity].
           destruct (encryptionkeymanager.createRootKey elapse IsStatusNotFound api w1)
             as [[[k wk']|err] w3]; reflexivity.
      * destruct ((len (Get_customer_provided_root_key_0 key_id data) =? 0)
                  || (o =? 0) && (n =? 1)); [|reflexivity].
        destruct (encryptionkeymanager.createRootKey elapse IsStatusNotFound api w1)
          as [[[k wk']|err] w3]; reflexivity.
  - cbn [List.length Z.of_nat Z.eqb].
    destruct (0 <? len (Get_customer_provided_root_key_0 key_id data)); [|reflexivity].
    destruct (encryptionkeymanager.removeKey elapse api
                (Get_customer_provided_root_key_0 key_id data) w1) as [[err|] w2];
      reflexivity.
Qed.

Lemma rekeyStep_due (api : Management R) (data : ResourceData) (w : World R) :
  rekeyStep api data w
  = if rekey_due data then invoke CallRekey (EncryptionKey_Rekey api) w else (None, w).
Proof.
  unfold rekeyStep, steps.rekeyStep, rekey_due.
  destruct (negb (IsNewResource data) && HasChange_key_rotation_id data);
    destruct (0 <? len (Get_key_rotation_id data)); reflexivity.
Qed.

Lemma rekeyStep_passes (api : Management R) (data : ResourceData) (w w1 : World R) :
  rekey_passes api data w w1 -> rekeyStep api data w = (None, w1).
Proof.
  rewrite rekeyStep_due. intros [[-> ->] | [-> Hcall]]; [reflexivity | exact Hcall].
Qed.

Lemma block_present_not_absent (data : ResourceData) :
  block_present data -> block_absent data = false.
Proof.
  intros (blocks & Hraw & Hne). unfold block_absent. rewrite Hraw.
  destruct blocks; [congruence | reflexivity].
Qed.

Lemma quiet_wrappedKeyStep (p : call -> bool) (api : Management R) (data : ResourceData) :
  no_import p -> no_read p -> no_sleep p -> quiet p (wrappedKeyStep api data).
Proof.
  intros Hi Hr Hs w. unfold wrappedKeyStep, steps.wrappedKeyStep.
  destruct (steps.config_wrapped_key value_String data) as [wk|]; [|apply quiet_here].
  destruct (import_due data).
  - exact (quiet_importWrappedKey p api _ _ Hi Hr Hs w).
  - destruct (too_early data); apply quiet_here.
Qed.

Lemma quiet_createStep (p : call -> bool) (api : Management R) (data : ResourceData) :
  no_create p -> no_read p -> no_sleep p -> no_fetch p -> quiet p (createStep api data).
Proof.
  intros Hc Hr Hs Hf w. unfold createStep, steps.createStep.
  destruct (create_due data); [|apply quiet_here].
  destruct (quiet_createRootKey p api Hc Hr Hs Hf w) as (d & Hd & Cd).
  unfold createRootKey in Hd.
  destruct (encryptionkeymanager.createRootKey elapse IsStatusNotFound api w)
    as [[[k wk]|err] w3]; exists d; split; assumption.
Qed.

Lemma quiet_createStep_not_due (p : call -> bool) (api : Management R)
    (data : ResourceData) :
  create_due data = false -> quiet p (createStep api data).
Proof.
  intros Hdue w. unfold createStep, steps.createStep. rewrite Hdue. apply quiet_here.
Qed.

Lemma quiet_wrappedKeyStep_not_due (p : call -> bool) (api : Management R)
    (data : ResourceData) :
  config_wrapped_key data = None \/ import_due data = false ->
  quiet p (wrappedKeyStep api data).
Proof.
  intros Hnot w. unfold wrappedKeyStep, steps.wrappedKeyStep.
  fold config_wrapped_key.
  destruct Hnot as [-> | Hdue]; [apply quiet_here|].
  rewrite Hdue. destruct (config_wrapped_key data); [|apply quiet_here].
  destruct (too_early data); apply quiet_here.
Qed.

Lemma quiet_rootKeyStep_untouched (p : call -> bool) (api : Management R)
    (data : ResourceData) :
  root_key_touched data = false -> quiet p (rootKeyStep api data).
Proof.
  intros Hgate w. unfold rootKeyStep, steps.rootKeyStep.
  unfold root_key_touched in Hgate. rewrite Hgate. apply quiet_here.
Qed.

Lemma quiet_rootKeyStep_absent (p : call -> bool) (api : Management R)
    (data : ResourceData) :
  block_absent data = true ->
  (no_delete p \/ Get_customer_provided_root_key_0 key_id data = EmptyString) ->
  no_read p -> no_sleep p ->
  quiet p (rootKeyStep api data).
Proof.
  intros Habs Hd Hr Hs w. unfold rootKeyStep, steps.rootKeyStep.
  destruct (IsNewResource data || HasChange_customer_provided_root_key data);
    [|apply quiet_here].
  rewrite Habs.
  destruct (0 <? len (Get_customer_provided_root_key_0 key_id data)) eqn:Hlen;
    [|apply quiet_here].
  destruct Hd as [Hd | Hempty]; [|apply len_pos in Hempty; congruence].
  destruct (quiet_removeKey p api (Get_customer_provided_root_key_0 key_id data)
              Hd Hr Hs w) as (d & Hcalls & Hcount).
  unfold removeKey in Hcalls.
  destruct (encryptionkeymanager.removeKey elapse api
              (Get_customer_provided_root_key_0 key_id data) w) as [err w2].
  exists d. split; assumption.
Qed.

Lemma quiet_rootKeyStep_present (p : call -> bool) (api : Management R)
    (data : ResourceData) :
  block_absent data = false ->
  quiet p (wrappedKeyStep api data) ->
  quiet p (createStep api data) ->
  quiet p (rootKeyStep api data).
Proof.
  intros Habs Hw Hc w. unfold rootKeyStep, steps.rootKeyStep.
  destruct (IsNewResource data || HasChange_customer_provided_root_key data);
    [|apply quiet_here].
  rewrite Habs. fold wrappedKeyStep. fold createStep.
  destruct (Hw w) as (d1 & H1 & C1).
  destruct (wrappedKeyStep api data w) as [[err|] w2]; cbn [snd] in H1 |- *.
  - exists d1. split; assumption.
  - destruct (Hc w2) as (d2 & H2 & C2).
    exact (quiet_chain p w w2 _ d1 d2 H1 C1 H2 C2).
Qed.

(** The calls of [update] outside [p], from those of its steps. *)
Lemma quiet_update (p : call -> bool) (fuel : nat) (api : Management R)
    (data : ResourceData) :
  quiet p (rekeyStep api data) ->
  quiet p (rootKeyStep api data) ->
  no_list p ->
  quiet p (update fuel api data).
Proof.
  intros Hrekey Hroot Hl w. rewrite update_steps.
  destruct (Hrekey w) as (d1 & H1 & C1).
  destruct (rekeyStep api data w) as [[err|] w1]; cbn [snd] in H1 |- *.
  - exists d1. split; assumption.
  - destruct (Hroot w1) as (d2 & H2 & C2).
    destruct (rootKeyStep api data w1) as [[[err|] data1] w4]; cbn [snd] in H2 |- *.
    + exact (quiet_chain p w w1 w4 d1 d2 H1 C1 H2 C2).
    + destruct (quiet_chain p w w1 w4 d1 d2 H1 C1 H2 C2) as (d12 & H12 & C12).
      destruct (quiet_read p fuel api data1 Hl w4) as (d3 & H3 & C3).
      exact (quiet_chain p w w4 _ d12 d3 H12 C12 H3 C3).
Qed.

Lemma quiet_rekeyStep (p : call -> bool) (api : Management R) (data : ResourceData) :
  p CallRekey = false -> quiet p (rekeyStep api data).
Proof.
  intros Hp w. rewrite rekeyStep_due. destruct (rekey_due data).
  - exact (quiet_invoke p CallRekey (EncryptionKey_Rekey api) Hp w).
  - apply quiet_here.
Qed.

Lemma quiet_count {A : Type} (p : call -> bool) (m : M R A) (w : World R) :
  quiet p m -> count p (calls (snd (m w))) = count p (calls w).
Proof.
  intros Hq. destruct (Hq w) as (d & Hd & Cd). rewrite Hd, count_app, Cd. lia.
Qed.

(** What [update] does once the rekey step is over. *)
Let rest (fuel : nat) (api : Management R) (data : ResourceData)
    : M R (option (Diagnostics * ResourceData)) :=
  fun w1 =>
    match rootKeyStep api data w1 with
    | ((Some err, data1), w4) => (Some ([err], data1), w4)
    | ((None, data1), w4) => read fuel api data1 w4
    end.

Lemma quiet_rest (p : call -> bool) (fuel : nat) (api : Management R)
    (data : ResourceData) :
  quiet p (rootKeyStep api data) -> no_list p -> quiet p (rest fuel api data).
Proof.
  intros Hroot Hl w1. unfold rest.
  destruct (Hroot w1) as (d2 & H2 & C2).
  destruct (rootKeyStep api data w1) as [[[err|] data1] w4]; cbn [snd] in H2 |- *.
  - exists d2. split; assumption.
  - destruct (quiet_read p fuel api data1 Hl w4) as (d3 & H3 & C3).
    exact (quiet_chain p w1 w4 _ d2 d3 H2 C2 H3 C3).
Qed.

(** The root key step never rekeys. *)
Lemma quiet_rootKeyStep_rekey (api : Management R) (data : ResourceData) :
  quiet is_rekey (rootKeyStep api data).
Proof.
  destruct (block_absent data) eqn:Habs.
  - apply quiet_rootKeyStep_absent; [exact Habs | left | |]; intros ?; reflexivity.
  - apply quiet_rootKeyStep_present; [exact Habs | |].
    + apply quiet_wrappedKeyStep; intros ?; reflexivity.
    + apply quiet_createStep; intros ?; reflexivity.
Qed.

(** X3.  When a rekey is due and the [Rekey] call is refused, [update]
    ends there: the error is its only diagnostic, the resource data are
    untouched and [Rekey] is the only call made. *)
Theorem update_rekey_refused (fuel : nat) (api : Management R) (data : ResourceData)
    (w w1 : World R) (err : error) :
  rekey_due data = true ->
  invoke CallRekey (EncryptionKey_Rekey api) w = (Some err, w1) ->
  update fuel api data w = (Some ([err], data), w1)
  /\ calls w1 = calls w ++ [CallRekey].
Proof.
  intros Hdue Hcall. split.
  - rewrite update_steps, rekeyStep_due, Hdue, Hcall. reflexivity.
  - unfold invoke in Hcall. destruct (EncryptionKey_Rekey api (remote w)) as [o r1].
    inversion Hcall; subst. reflexivity.
Qed.

(** X4.  [update] calls [Rekey] once when the resource is not new and
    its [key_rotation_id] has changed to a non-empty value, and never
    otherwise; when it does, [Rekey] is its first call. *)
Theorem update_rekeys_when_due (fuel : nat) (api : Management R) (data : ResourceData)
    (w : World R) :
  count is_rekey (calls (snd (update fuel api data w)))
  = count is_rekey (calls w) + (if rekey_due data then 1 else 0)
  /\ (rekey_due data = true ->
      exists more, calls (snd (update fuel api data w)) = calls w ++ CallRekey :: more)
  /\ (rekey_due data = true <->
      IsNewResource data = false
      /\ state_key_rotation_id data <> plan_key_rotation_id data
      /\ plan_key_rotation_id data <> EmptyString).
Proof.
  assert (Hrest : forall w1, exists d,
             calls (snd (rest fuel api data w1)) = calls w1 ++ d /\ count is_rekey d = 0).
  { apply quiet_rest; [apply quiet_rootKeyStep_rekey | intros ? ?; reflexivity]. }
  assert (Hrun : update fuel api data w
                 = match rekeyStep api data w with
                   | (Some err, w1) => (Some ([err], data), w1)
                   | (None, w1) => rest fuel api data w1
                   end) by apply update_steps.
  split; [|split].
  - rewrite Hrun, rekeyStep_due. destruct (rekey_due data).
    + unfold invoke. destruct (EncryptionKey_Rekey api (remote w)) as [[err|] r1].
      * cbn [snd calls]. rewrite count_app, count_single. reflexivity.
      * destruct (Hrest (mkWorld r1 (calls w ++ [CallRekey]))) as (d & Hd & Cd).
        rewrite Hd. cbn [calls]. rewrite !count_app, Cd, count_single. cbn [is_rekey]. lia.
    + destruct (Hrest w) as (d & Hd & Cd). rewrite Hd, count_app, Cd. lia.
  - intros Hdue. rewrite Hrun, rekeyStep_due, Hdue. unfold invoke.
    destruct (EncryptionKey_Rekey api (remote w)) as [[err|] r1].
    + exists []. reflexivity.
    + destruct (Hrest (mkWorld r1 (calls w ++ [CallRekey]))) as (d & Hd & _).
      exists d. rewrite Hd. cbn [calls]. rewrite <- app_assoc. reflexivity.
  - unfold rekey_due, HasChange_key_rotation_id, Get_key_rotation_id.
    rewrite !andb_true_iff, !negb_true_iff, String.eqb_neq, Z.ltb_lt.
    split.
    + intros [[Hnew Hchange] Hlen]. repeat split; try assumption.
      intros Hempty. rewrite Hempty in Hlen. cbn in Hlen. lia.
    + intros (Hnew & Hchange & Hne). repeat split; try assumption.
      destruct (plan_key_rotation_id data); [congruence|]. unfold len. cbn. lia.
Qed.

Lemma count_kept (p : call -> bool) (fuel : nat) (api : Management R)
    (data : ResourceData) (w : World R) :
  p CallRekey = false -> no_list p ->
  quiet p (rootKeyStep api data) ->
  count p (calls (snd (update fuel api data w))) = count p (calls w).
Proof.
  intros Hr Hl Hroot. apply quiet_count.
  apply quiet_update; [apply quiet_rekeyStep; exact Hr | exact Hroot | exact Hl].
Qed.

(** X5.  [update] deletes a key only when the resource is new or its
    block has changed, the block is gone from the configuration and a
    key ID is recorded: in every other case it makes no [Delete] call. *)
Theorem update_deletes_only_removed_block (fuel : nat) (api : Management R)
    (data : ResourceData) (w : World R) :
  root_key_touched data = false
  \/ block_present data
  \/ Get_customer_provided_root_key_0 key_id data = EmptyString ->
  count is_delete (calls (snd (update fuel api data w))) = count is_delete (calls w).
Proof.
  intros Hcase. apply count_kept; [reflexivity | intros ? ?; reflexivity |].
  assert (Hpresent : block_absent data = false -> quiet is_delete (rootKeyStep api data)).
  { intros Habs. apply quiet_rootKeyStep_present; [exact Habs | |].
    - apply quiet_wrappedKeyStep; intros ?; reflexivity.
    - apply quiet_createStep; intros ?; reflexivity. }
  destruct Hcase as [Hgate | [Hblock | Hempty]].
  - apply quiet_rootKeyStep_untouched. exact Hgate.
  - apply Hpresent, block_present_not_absent, Hblock.
  - destruct (block_absent data) eqn:Habs; [|apply Hpresent; reflexivity].
    apply quiet_rootKeyStep_absent; [exact Habs | right; exact Hempty | |];
      intros ?; reflexivity.
Qed.

(** X6.  [update] creates a root key, and fetches a wrapping key, only
    when the resource is new or its block has changed, the block is in
    the configuration, and no key ID is recorded or the block is newly
    added: in every other case it makes neither call. *)
Theorem update_creates_only_when_due (fuel : nat) (api : Management R)
    (data : ResourceData) (w : World R) :
  root_key_touched data = false
  \/ block_absent data = true
  \/ (Get_customer_provided_root_key_0 key_id data <> EmptyString
      /\ (state_customer_provided_root_key data <> []
          \/ List.length (plan_customer_provided_root_key data) <> 1%nat)) ->
  count is_create (calls (snd (update fuel api data w))) = count is_create (calls w)
  /\ count is_wrapping_fetch (calls (snd (update fuel api data w)))
     = count is_wrapping_fetch (calls w).
Proof.
  intros Hcase.
  assert (Hroot : forall p, no_delete p -> no_import p -> no_read p -> no_sleep p ->
                            quiet p (rootKeyStep api data)).
  { intros p Hd Hi Hr Hs. destruct Hcase as [Hgate | [Habs | [Hid Hold]]].
    - apply quiet_rootKeyStep_untouched. exact Hgate.
    - apply quiet_rootKeyStep_absent; [exact Habs | left; exact Hd | exact Hr | exact Hs].
    - destruct (block_absent data) eqn:Habs.
      + apply quiet_rootKeyStep_absent; [exact Habs | left; exact Hd | exact Hr | exact Hs].
      + apply quiet_rootKeyStep_present; [exact Habs | |].
        * apply quiet_wrappedKeyStep; assumption.
        * apply quiet_createStep_not_due. unfold create_due.
          apply orb_false_iff. split.
          -- apply Z.eqb_neq. rewrite len_empty. exact Hid.
          -- unfold GetChange_customer_provided_root_key_count. cbn [fst snd].
             apply andb_false_iff. destruct Hold as [Hold | Hold].
             ++ left. apply Z.eqb_neq.
                destruct (state_customer_provided_root_key data); [congruence|].
                cbn [List.length]. lia.
             ++ right. apply Z.eqb_neq. lia. }
  split; (apply count_kept; [reflexivity | intros ? ?; reflexivity |]);
    apply Hroot; intros ?; reflexivity.
Qed.

(** X7.  [update] imports a wrapped key only when the resource is new or
    its block has changed, the block is in the configuration with a
    wrapped key, and the recorded key has an ID, the state
    "pre-activation" and a public wrapping key: in every other case it
    makes no [ImportWrappedKey] call. *)
Theorem update_imports_only_when_due (fuel : nat) (api : Management R)
    (data : ResourceData) (w : World R) :
  root_key_touched data = false
  \/ block_absent data = true
  \/ config_wrapped_key data = None
  \/ Get_customer_provided_root_key_0 key_id data = EmptyString
  \/ Get_customer_provided_root_key_0 state data <> "pre-activation"%string
  \/ Get_customer_provided_root_key_0 public_wrapping_key data = EmptyString ->
  count is_import (calls (snd (update fuel api data w))) = count is_import (calls w).
Proof.
  intros Hcase. apply count_kept; [reflexivity | intros ? ?; reflexivity |].
  assert (Hwhen : config_wrapped_key data = None \/ import_due data = false ->
                  quiet is_import (rootKeyStep api data)).
  { intros Hnot. destruct (block_absent data) eqn:Habs.
    - apply quiet_rootKeyStep_absent; [exact Habs | left | |]; intros ?; reflexivity.
    - apply quiet_rootKeyStep_present; [exact Habs | |].
      + apply quiet_wrappedKeyStep_not_due. exact Hnot.
      + apply quiet_createStep; intros ?; reflexivity. }
  destruct Hcase as [Hgate | [Habs | [Hnone | [Hid | [Hstate | Hpwk]]]]].
  - apply quiet_rootKeyStep_untouched. exact Hgate.
  - apply quiet_rootKeyStep_absent; [exact Habs | left | |]; intros ?; reflexivity.
  - apply Hwhen. left. exact Hnone.
  - apply Hwhen. right. unfold import_due. apply len_pos in Hid. rewrite Hid. reflexivity.
  - apply Hwhen. right. unfold import_due. apply String.eqb_neq in Hstate.
    rewrite Hstate, andb_false_r. reflexivity.
  - apply Hwhen. right. unfold import_due. apply len_pos in Hpwk.
    rewrite Hpwk, andb_false_r. reflexivity.
Qed.

Lemma update_passed (fuel : nat) (api : Management R) (data : ResourceData)
    (w w1 : World R) :
  rekey_passes api data w w1 ->
  update fuel api data w = rest fuel api data w1.
Proof.
  intros Hpass. rewrite update_steps, (rekeyStep_passes _ _ _ _ Hpass). reflexivity.
Qed.

(** X8.  When the resource is not new and its block has not changed,
    [update] is, after the rekey step, the read alone: no key is
    deleted, created or imported, whatever the configuration holds. *)
Theorem update_untouched_is_read (fuel : nat) (api : Management R) (data : ResourceData)
    (w w1 : World R) :
  root_key_touched data = false ->
  rekey_passes api data w w1 ->
  update fuel api data w = read fuel api data w1.
Proof.
  intros Hgate Hpass. rewrite (update_passed _ _ _ _ _ Hpass).
  unfold rest, rootKeyStep, steps.rootKeyStep.
  unfold root_key_touched in Hgate. rewrite Hgate. reflexivity.
Qed.

(** X9.  When the resource is new or its block has changed, the block is
    null or empty in the configuration and the rekey step has passed,
    [update] removes the recorded key: it runs [removeKey] on the
    recorded key ID in the world the rekey step left, ends with its
    error if it fails, and goes on to the read if it succeeds.  With no
    key ID recorded it goes straight to the read. *)
Theorem update_removes_key (fuel : nat) (api : Management R) (data : ResourceData)
    (w w1 : World R) :
  root_key_touched data = true ->
  block_absent data = true ->
  rekey_passes api data w w1 ->
  let rootKeyID := Get_customer_provided_root_key_0 key_id data in
  (rootKeyID <> EmptyString ->
   update fuel api data w
   = match removeKey api rootKeyID w1 with
     | (Some err, w2) => (Some ([err], data), w2)
     | (None, w2) => read fuel api data w2
     end)
  /\ (rootKeyID = EmptyString -> update fuel api data w = read fuel api data w1).
Proof.
  intros Hgate Habs Hpass. cbv zeta.
  rewrite (update_passed _ _ _ _ _ Hpass).
  unfold rest, rootKeyStep, steps.rootKeyStep.
  unfold root_key_touched in Hgate. rewrite Hgate, Habs. split.
  - intros Hid.
    destruct (0 <? len (Get_customer_provided_root_key_0 key_id data)) eqn:Hlen;
      [|apply len_pos in Hlen; contradiction].
    unfold removeKey.
    destruct (encryptionkeymanager.removeKey elapse api
                (Get_customer_provided_root_key_0 key_id data) w1) as [[err|] w2];
      reflexivity.
  - intros Hid. apply len_pos in Hid. rewrite Hid. reflexivity.
Qed.

Lemma not_newly_added (data : ResourceData) :
  Get_customer_provided_root_key_0 key_id data <> EmptyString ->
  state_customer_provided_root_key data <> [] ->
  create_due data = false.
Proof.
  intros Hid Hold. unfold create_due. apply orb_false_iff. split.
  - apply Z.eqb_neq. rewrite len_empty. exact Hid.
  - unfold GetChange_customer_provided_root_key_count. cbn [fst snd].
    destruct (state_customer_provided_root_key data); [congruence|]. reflexivity.
Qed.

Lemma createStep_not_due (api : Management R) (data : ResourceData) (w : World R) :
  create_due data = false -> createStep api data w = ((None, data), w).
Proof.
  intros Hdue. unfold createStep, steps.createStep. rewrite Hdue. reflexivity.
Qed.

(** X10.  When the resource is new or its block has changed and the
    rekey step has passed: if the configuration gives a wrapped key for
    a recorded key that has an ID, a public wrapping key and the state
    "pre-activation", and the block was there before, [update] runs
    [importWrappedKey] with the recorded ID and the configured wrapped
    key in the world the rekey step left; it ends with the error of the
    import when there is one, and otherwise goes on to the read without
    creating a key. *)
Theorem update_imports_wrapped_key (fuel : nat) (api : Management R)
    (data : ResourceData) (w w1 : World R) (wk : string) :
  root_key_touched data = true ->
  block_present data ->
  config_wrapped_key data = Some wk ->
  Get_customer_provided_root_key_0 key_id data <> EmptyString ->
  Get_customer_provided_root_key_0 state data = "pre-activation"%string ->
  Get_customer_provided_root_key_0 public_wrapping_key data <> EmptyString ->
  state_customer_provided_root_key data <> [] ->
  rekey_passes api data w w1 ->
  update fuel api data w
  = match importWrappedKey api (Get_customer_provided_root_key_0 key_id data)
            (Some wk) w1 with
    | (Some err, w2) => (Some ([err], data), w2)
    | (None, w2) => read fuel api data w2
    end.
Proof.
  intros Hgate Hblock Hwk Hid Hstate Hpwk Hold Hpass.
  rewrite (update_passed _ _ _ _ _ Hpass).
  unfold rest, rootKeyStep, steps.rootKeyStep.
  unfold root_key_touched in Hgate.
  rewrite Hgate, (block_present_not_absent _ Hblock).
  unfold steps.wrappedKeyStep. fold config_wrapped_key. rewrite Hwk.
  assert (Hdue : import_due data = true).
  { unfold import_due. rewrite Hstate. cbn [String.eqb].
    destruct (0 <? len (Get_customer_provided_root_key_0 key_id data)) eqn:H1;
      [|apply len_pos in H1; contradiction].
    destruct (0 <? len (Get_customer_provided_root_key_0 public_wrapping_key data)) eqn:H2;
      [|apply len_pos in H2; contradiction].
    reflexivity. }
  rewrite Hdue. unfold importWrappedKey.
  destruct (encryptionkeymanager.importWrappedKey elapse api
              (Get_customer_provided_root_key_0 key_id data) (Some wk) w1)
    as [[err|] w2]; [reflexivity|].
  fold createStep. rewrite (createStep_not_due _ _ _ (not_newly_added _ Hid Hold)).
  reflexivity.
Qed.

(** X11.  Once the rekey step has passed, a wrapped key in the
    configuration for a recorded key that is past "pre-activation" is
    passed over, whether or not the block has changed: with a key ID
    and a public wrapping key recorded and the block there before,
    [update] gives no error for it, imports and creates nothing, and is
    the read alone, in the world the rekey step left. *)
Theorem update_passes_over_wrapped_key (fuel : nat) (api : Management R)
    (data : ResourceData) (w w1 : World R) (wk : string) :
  block_present data ->
  config_wrapped_key data = Some wk ->
  Get_customer_provided_root_key_0 key_id data <> EmptyString ->
  Get_customer_provided_root_key_0 state data <> "pre-activation"%string ->
  Get_customer_provided_root_key_0 public_wrapping_key data <> EmptyString ->
  state_customer_provided_root_key data <> [] ->
  rekey_passes api data w w1 ->
  update fuel api data w = read fuel api data w1.
Proof.
  intros Hblock Hwk Hid Hstate Hpwk Hold Hpass.
  rewrite (update_passed _ _ _ _ _ Hpass).
  unfold rest, rootKeyStep, steps.rootKeyStep.
  destruct (IsNewResource data || HasChange_customer_provided_root_key data);
    [|reflexivity].
  rewrite (block_present_not_absent _ Hblock).
  unfold steps.wrappedKeyStep. fold config_wrapped_key. rewrite Hwk.
  assert (Hdue : import_due data = false).
  { unfold import_due. apply String.eqb_neq in Hstate.
    rewrite Hstate, andb_false_r. reflexivity. }
  assert (Hearly : too_early data = false).
  { unfold too_early. apply orb_false_iff.
    split; apply Z.eqb_neq; rewrite len_empty; assumption. }
  rewrite Hdue, Hearly.
  fold createStep. rewrite (createStep_not_due _ _ _ (not_newly_added _ Hid Hold)).
  reflexivity.
Qed.

(** X12.  When the resource is new or its block has changed and the
    rekey step has passed: if the block is in the configuration
    without a wrapped key and no key ID is recorded, [update] runs
    [createRootKey] in the world the rekey step left; if that fails its
    error is the only diagnostic, the data are untouched and nothing is
    read; if it succeeds the block is set to the flattened new key with
    its wrapping key, and the read runs on those data. *)
Theorem update_creates_root_key (fuel : nat) (api : Management R)
    (data : ResourceData) (w w1 : World R) :
  root_key_touched data = true ->
  block_present data ->
  config_wrapped_key data = None ->
  Get_customer_provided_root_key_0 key_id data = EmptyString ->
  rekey_passes api data w w1 ->
  update fuel api data w
  = match createRootKey api w1 with
    | (inr err, w3) => (Some ([err], data), w3)
    | (inl (rootKey, wrappingKey), w3) =>
        read fuel api
          (Set_customer_provided_root_key data
             (flattenCustomerProvidedRootKey data rootKey (Some wrappingKey)))
          w3
    end.
Proof.
  intros Hgate Hblock Hwk Hid Hpass.
  rewrite (update_passed _ _ _ _ _ Hpass).
  unfold rest, rootKeyStep, steps.rootKeyStep.
  unfold root_key_touched in Hgate.
  rewrite Hgate, (block_present_not_absent _ Hblock).
  unfold steps.wrappedKeyStep. fold config_wrapped_key. rewrite Hwk.
  unfold steps.createStep, create_due. rewrite Hid. cbn [len String.length Z.of_nat Z.eqb orb].
  unfold createRootKey.
  destruct (encryptionkeymanager.createRootKey elapse IsStatusNotFound api w1)
    as [[[k wk']|err] w3]; reflexivity.
Qed.

(** *** What the flows write in the resource data *)

Lemma same_inputs_refl (d : ResourceData) : same_inputs d d.
Proof. repeat split. Qed.

Lemma same_inputs_trans (d1 d2 d3 : ResourceData) :
  same_inputs d1 d2 -> same_inputs d2 d3 -> same_inputs d1 d3.
Proof.
  unfold same_inputs.
  intros (A1 & A2 & A3 & A4 & A5 & A6 & A7) (B1 & B2 & B3 & B4 & B5 & B6 & B7).
  repeat split; congruence.
Qed.

Lemma rootKeyStep_data (api : Management R) (data : ResourceData) (w : World R) :
  same_inputs data (snd (fst (rootKeyStep api data w)))
  /\ encryption_keys (snd (fst (rootKeyStep api data w))) = encryption_keys data.
Proof.
  unfold rootKeyStep, steps.rootKeyStep.
  destruct (IsNewResource data || HasChange_customer_provided_root_key data);
    [|split; [apply same_inputs_refl | reflexivity]].
  destruct (block_absent data).
  - destruct (0 <? len (Get_customer_provided_root_key_0 key_id data));
      [|split; [apply same_inputs_refl | reflexivity]].
    destruct (encryptionkeymanager.removeKey elapse api _ w) as [err w2].
    split; [apply same_inputs_refl | reflexivity].
  - destruct (steps.wrappedKeyStep elapse value_String api data w) as [[err|] w2];
      [split; [apply same_inputs_refl | reflexivity]|].
    unfold steps.createStep.
    destruct (create_due data); [|split; [apply same_inputs_refl | reflexivity]].
    destruct (encryptionkeymanager.createRootKey elapse IsStatusNotFound api w2)
      as [[[k wk]|err] w3]; split; try apply same_inputs_refl; try reflexivity.
    repeat split.
Qed.

(** X13.  A read that ends writes nothing but the block and the
    [encryption_keys]: the ID, the prior state, the plan and the
    configuration are as before.  When the listing fails the data are
    returned untouched with the error as the only diagnostic; when it
    succeeds there is no diagnostic and [encryption_keys] holds the
    flattened keys; and a read of data without a block sets no block. *)
Theorem read_writes_computed_only (fuel : nat) (api : Management R)
    (data data' : ResourceData) (diags : Diagnostics) (w w' : World R) :
  read fuel api data w = (Some (diags, data'), w') ->
  same_inputs data data'
  /\ (forall err, fst (listEncryptionKeys fuel api 0 [] w) = Some (inr err) ->
        diags = [err] /\ data' = data)
  /\ (forall keys, fst (listEncryptionKeys fuel api 0 [] w) = Some (inl keys) ->
        diags = [] /\ encryption_keys data' = flattenEncryptionKeys keys)
  /\ (Get_customer_provided_root_key_count data = 0 ->
      set_customer_provided_root_key data' = set_customer_provided_root_key data).
Proof.
  unfold read, readEncryptionKeyManager.
  destruct (listEncryptionKeys fuel api 0 [] w) as [[[keys|err]|] w1]; intros Hrun;
    [| |discriminate].
  - inversion Hrun; subst; clear Hrun. cbn [fst].
    split; [|split; [|split]].
    + destruct (0 <? Get_customer_provided_root_key_count data); [|repeat split].
      destruct (getKeyByTypeAndState _ _ keys) as [k|];
        [repeat split|]. destruct (getKeyByTypeAndState _ _ keys); repeat split.
    + intros err Herr. discriminate.
    + intros keys' Hkeys. inversion Hkeys; subst. split; reflexivity.
    + intros Hcount. rewrite Hcount. reflexivity.
  - inversion Hrun; subst; clear Hrun. cbn [fst].
    split; [apply same_inputs_refl|]. split; [|split].
    + intros err' Herr. inversion Herr; subst. split; reflexivity.
    + intros keys Hkeys. discriminate.
    + intros _. reflexivity.
Qed.

Lemma read_same_inputs (fuel : nat) (api : Management R)
    (data data' : ResourceData) (diags : Diagnostics) (w w' : World R) :
  read fuel api data w = (Some (diags, data'), w') -> same_inputs data data'.
Proof.
  unfold read, readEncryptionKeyManager.
  destruct (listEncryptionKeys fuel api 0 [] w) as [[[keys|err]|] w1]; intros Hrun;
    [| |discriminate]; inversion Hrun; subst; clear Hrun; [|apply same_inputs_refl].
  destruct (0 <? Get_customer_provided_root_key_count data); [|repeat split].
  destruct (getKeyByTypeAndState _ _ keys) as [k|];
    [repeat split|]. destruct (getKeyByTypeAndState _ _ keys); repeat split.
Qed.

Lemma update_same_inputs (fuel : nat) (api : Management R)
    (data data' : ResourceData) (diags : Diagnostics) (w w' : World R) :
  update fuel api data w = (Some (diags, data'), w') -> same_inputs data data'.
Proof.
  rewrite update_steps.
  destruct (rekeyStep api data w) as [[err|] w1].
  - intros Hrun. inversion Hrun; subst. apply same_inputs_refl.
  - destruct (rootKeyStep_data api data w1) as [Hsame _].
    destruct (rootKeyStep api data w1) as [[[err|] data1] w4]; cbn [fst snd] in Hsame.
    + intros Hrun. inversion Hrun; subst. exact Hsame.
    + intros Hrun. apply read_same_inputs in Hrun.
      exact (same_inputs_trans _ _ _ Hsame Hrun).
Qed.

(** X14.  An update that ends leaves the ID, the prior state, the plan
    and the configuration of the resource data as they were: it writes
    at most the [customer_provided_root_key] block and the
    [encryption_keys]. *)
Theorem update_writes_computed_only (fuel : nat) (api : Management R)
    (data data' : ResourceData) (diags : Diagnostics) (w w' : World R) :
  update fuel api data w = (Some (diags, data'), w') ->
  Id data' = Id data
  /\ IsNewResource data' = IsNewResource data
  /\ state_key_rotation_id data' = state_key_rotation_id data
  /\ plan_key_rotation_id data' = plan_key_rotation_id data
  /\ state_customer_provided_root_key data' = state_customer_provided_root_key data
  /\ plan_customer_provided_root_key data' = plan_customer_provided_root_key data
  /\ raw_customer_provided_root_key data' = raw_customer_provided_root_key data.
Proof.
  intros Hrun. exact (update_same_inputs _ _ _ _ _ _ _ Hrun).
Qed.

(** X15.  A create that ends gives the resource the unique ID it drew,
    also when it ends with an error, and leaves the prior state, the
    plan and the configuration of the resource data as they were. *)
Theorem create_sets_id (uniqueId : string) (fuel : nat) (api : Management R)
    (data data' : ResourceData) (diags : Diagnostics) (w w' : World R) :
  createEncryptionKeyManager elapse IsStatusNotFound getKeyByTypeAndState
    flattenCustomerProvidedRootKey flattenEncryptionKeys value_String
    uniqueId fuel api data w = (Some (diags, data'), w') ->
  Id data' = uniqueId
  /\ IsNewResource data' = IsNewResource data
  /\ state_key_rotation_id data' = state_key_rotation_id data
  /\ plan_key_rotation_id data' = plan_key_rotation_id data
  /\ state_customer_provided_root_key data' = state_customer_provided_root_key data
  /\ plan_customer_provided_root_key data' = plan_customer_provided_root_key data
  /\ raw_customer_provided_root_key data' = raw_customer_provided_root_key data.
Proof.
  unfold createEncryptionKeyManager. fold update. intros Hrun.
  apply update_same_inputs in Hrun. exact Hrun.
Qed.

(** *** The listing *)

Lemma int_incr_next (page : Z) :
  - 2 ^ 63 <= page < 2 ^ 63 - 1 -> int_incr page = page + 1.
Proof.
  intros Hpage. unfold int_incr.
  change (2 ^ 64) with (2 ^ 63 + 2 ^ 63).
  rewrite Z.mod_small; lia.
Qed.

Lemma listEncryptionKeys_listing (api : Management R) (fuel : nat) :
  forall page keys w,
    - 2 ^ 63 <= page -> page + Z.of_nat fuel <= 2 ^ 63 ->
    exists n, (n <= fuel)%nat
      /\ calls (snd (listEncryptionKeys fuel api page keys w)) = calls w ++ listing page n
      /\ (fst (listEncryptionKeys fuel api page keys w) <> None -> n <> O).
Proof.
  induction fuel as [|fuel IH]; intros page keys w Hlow Hhigh.
  - exists O. cbn [listEncryptionKeys listing fst snd]. rewrite app_nil_r.
    split; [lia|]. split; [reflexivity|]. intros H. contradiction H. reflexivity.
  - cbn [listEncryptionKeys]. unfold invoke.
    destruct (EncryptionKey_List api page 5 (remote w)) as [[l|err] r1].
    + destruct (HasNext l).
      * destruct fuel as [|fuel].
        -- exists 1%nat. cbn [listEncryptionKeys listing fst snd calls].
           split; [lia|]. split; [reflexivity|]. intros _. discriminate.
        -- destruct (IH (int_incr page) (keys ++ Keys l)
                        (mkWorld r1 (calls w ++ [CallList page 5])))
             as (n & Hn & Hcalls & Hsome).
           { rewrite int_incr_next; lia. }
           { rewrite int_incr_next; lia. }
           exists (S n). split; [lia|]. split; [|discriminate].
           rewrite Hcalls. cbn [calls listing]. rewrite int_incr_next by lia.
           rewrite <- app_assoc. reflexivity.
      * exists 1%nat. cbn [listing fst snd calls].
        split; [lia|]. split; [reflexivity|]. intros _. discriminate.
    + exists 1%nat. cbn [listing fst snd calls].
      split; [lia|]. split; [reflexivity|]. intros _. discriminate.
Qed.

(** X17.  A read talks to the tenant by [List] calls only: it asks for
    the pages 0, 1, 2, ... in this order, five keys a page and each page
    once, and makes no other call; a read that ends has asked for one
    page at least. *)
Theorem read_lists_pages_in_order (fuel : nat) (api : Management R)
    (data : ResourceData) (w : World R) :
  Z.of_nat fuel <= 2 ^ 63 ->
  exists n, (n <= fuel)%nat
    /\ calls (snd (read fuel api data w)) = calls w ++ listing 0 n
    /\ (fst (read fuel api data w) <> None -> n <> O).
Proof.
  intros Hfuel.
  destruct (listEncryptionKeys_listing api fuel 0 [] w) as (n & Hn & Hcalls & Hsome);
    [lia | lia |].
  exists n. split; [exact Hn|]. unfold read.
  rewrite readEncryptionKeyManager_world. split; [exact Hcalls|].
  intros Hread. apply Hsome. intros Hnone. apply Hread.
  unfold readEncryptionKeyManager.
  destruct (listEncryptionKeys fuel api 0 [] w) as [[res|] w1];
    [discriminate Hnone | reflexivity].
Qed.

(** *** The three waits *)

Lemma polling_calls (keyID : string) (i : Z) (check : M R (bool * option error)) :
  (forall w, calls (snd (check w)) = calls w ++ [CallRead keyID]) ->
  forall k w,
    calls (snd (check (wait.world_at Sleep k i check w))) = calls w ++ polling keyID i k.
Proof.
  intros Hcheck. induction k as [|k IH]; intros w; cbn [wait.world_at polling].
  - apply Hcheck.
  - rewrite IH. unfold Sleep, encryptionkeymanager.Sleep. cbn [calls].
    rewrite Hcheck, <- !app_assoc. reflexivity.
Qed.

Lemma wait_Until_done (maxAttempts i : Z) (check : M R (bool * option error))
    (w : World R) (k : nat) :
  (k < Z.to_nat maxAttempts)%nat ->
  (forall j, (j < k)%nat ->
     fst (check (wait.world_at Sleep j i check w)) = (false, None)) ->
  fst (check (wait.world_at Sleep k i check w)) = (true, None) ->
  wait_Until maxAttempts i check w
  = (None, snd (check (wait.world_at Sleep k i check w))).
Proof.
  intros Hk Hpre Hdone. unfold wait_Until, encryptionkeymanager.wait_Until, wait.Until.
  destruct (poll_done Sleep k i check _ w Hk Hpre Hdone) as (Hr & _ & _ & Hw).
  cbv zeta in Hr, Hw. fold Sleep. rewrite Hr, Hw. reflexivity.
Qed.

Lemma wait_Until_spent (n : nat) (i : Z) (check : M R (bool * option error))
    (w : World R) :
  (forall j, (j <= n)%nat ->
     fst (check (wait.world_at Sleep j i check w)) = (false, None)) ->
  wait_Until (Z.of_nat (S n)) i check w
  = (Some ErrTimeout, snd (check (wait.world_at Sleep n i check w))).
Proof.
  intros Hall. unfold wait_Until, encryptionkeymanager.wait_Until, wait.Until.
  rewrite Nat2Z.id.
  destruct (poll_exhausted Sleep n i check w Hall) as (Hr & _ & _ & Hw).
  cbv zeta in Hr, Hw. fold Sleep. rewrite Hr, Hw. reflexivity.
Qed.

Lemma invoke_calls {A : Type} (c : call) (op : R -> A * R) (w : World R) :
  calls (snd (invoke c op w)) = calls w ++ [c].
Proof. unfold invoke. destruct (op (remote w)). reflexivity. Qed.

Lemma removeKey_check_calls (api : Management R) (keyID : string) (w : World R) :
  calls (snd (removeKey_check api keyID w)) = calls w ++ [CallRead keyID].
Proof. rewrite removeKey_check_eq. reflexivity. Qed.

Lemma removeKey_check_pending (api : Management R) (keyID : string) (w : World R) :
  (exists key, fst (EncryptionKey_Read api keyID (remote w)) = inl key
               /\ GetState key <> "destroyed"%string) ->
  fst (removeKey_check api keyID w) = (false, None).
Proof.
  intros (key & Hread & Hstate). rewrite removeKey_check_eq, Hread. cbn [fst].
  apply String.eqb_neq in Hstate. rewrite Hstate. reflexivity.
Qed.

(** X18.  [removeKey] reads only after a delete that went well: a
    refused delete is its error and its only call.  After a delete that
    went well it reads the key every 20 milliseconds; when the reads
    show other states and then "destroyed", it succeeds at that read,
    having made the delete call, the reads and the sleeps between them
    and nothing more. *)
Theorem removeKey_until_destroyed (api : Management R) (keyID : string) (w : World R) :
  let delete := invoke (CallDelete keyID) (EncryptionKey_Delete api keyID) w in
  let check := removeKey_check api keyID in
  (forall err, fst delete = Some err ->
     removeKey api keyID w = (Some err, snd delete)
     /\ calls (snd delete) = calls w ++ [CallDelete keyID])
  /\ (forall k, fst delete = None -> (k < 100)%nat ->
        (forall j, (j < k)%nat ->
           exists key,
             fst (EncryptionKey_Read api keyID
                    (remote (wait.world_at Sleep j 20 check (snd delete)))) = inl key
             /\ GetState key <> "destroyed"%string) ->
        (exists key,
            fst (EncryptionKey_Read api keyID
                   (remote (wait.world_at Sleep k 20 check (snd delete)))) = inl key
            /\ GetState key = "destroyed"%string) ->
        fst (removeKey api keyID w) = None
        /\ calls (snd (removeKey api keyID w))
           = calls w ++ CallDelete keyID :: polling keyID 20 k).
Proof.
  cbv zeta. split.
  - intros err Hdel. split; [|apply invoke_calls].
    unfold removeKey, encryptionkeymanager.removeKey.
    destruct (invoke _ _ w) as [o w1]. cbn [fst snd] in *. subst o. reflexivity.
  - intros k Hdel Hk Hpre (key & Hread & Hstate).
    pose proof (invoke_calls (CallDelete keyID) (EncryptionKey_Delete api keyID) w) as Hc.
    unfold removeKey, encryptionkeymanager.removeKey.
    destruct (invoke _ _ w) as [o w1]. cbn [fst snd] in *. subst o.
    fold wait_Until.
    rewrite (wait_Until_done 100 20 (removeKey_check api keyID) w1 k).
    + cbn [fst snd]. split; [reflexivity|].
      rewrite (polling_calls keyID 20 _ (removeKey_check_calls api keyID)), Hc.
      rewrite <- app_assoc. reflexivity.
    + change (Z.to_nat 100) with 100%nat. exact Hk.
    + intros j Hj. apply removeKey_check_pending. exact (Hpre j Hj).
    + rewrite removeKey_check_eq, Hread. cbn [fst].
      rewrite Hstate. reflexivity.
Qed.

(** X19.  When the delete went well and each of the 100 reads shows the
    key in a state other than "destroyed", [removeKey] ends with the
    timeout of package [wait], after the delete call, 100 reads and the
    99 sleeps between them; the delete is not taken back. *)
Theorem removeKey_times_out (api : Management R) (keyID : string) (w : World R) :
  let delete := invoke (CallDelete keyID) (EncryptionKey_Delete api keyID) w in
  let check := removeKey_check api keyID in
  fst delete = None ->
  (forall j, (j < 100)%nat ->
     exists key,
       fst (EncryptionKey_Read api keyID
              (remote (wait.world_at Sleep j 20 check (snd delete)))) = inl key
       /\ GetState key <> "destroyed"%string) ->
  fst (removeKey api keyID w) = Some ErrTimeout
  /\ calls (snd (removeKey api keyID w))
     = calls w ++ CallDelete keyID :: polling keyID 20 99.
Proof.
  cbv zeta. intros Hdel Hall.
  pose proof (invoke_calls (CallDelete keyID) (EncryptionKey_Delete api keyID) w) as Hc.
  unfold removeKey, encryptionkeymanager.removeKey.
  destruct (invoke _ _ w) as [o w1]. cbn [fst snd] in *. subst o.
  fold wait_Until. change 100 with (Z.of_nat 100).
  rewrite (wait_Until_spent 99 20 (removeKey_check api keyID) w1).
  - cbn [fst snd]. split; [reflexivity|].
    rewrite (polling_calls keyID 20 _ (removeKey_check_calls api keyID)), Hc.
    rewrite <- app_assoc. reflexivity.
  - intros j Hj. apply removeKey_check_pending. apply Hall. lia.
Qed.

Lemma importWrappedKey_check_calls (api : Management R) (keyID : string) (w : World R) :
  calls (snd (importWrappedKey_check api keyID w)) = calls w ++ [CallRead keyID].
Proof. rewrite importWrappedKey_check_eq. reflexivity. Qed.

(** X20.  After an import call that went well, [importWrappedKey] reads
    the key every 20 milliseconds; when the reads show other states and
    then "active", it succeeds at that read, having made the import
    call, carrying the key ID and the wrapped key, then the reads and
    the sleeps between them and nothing more. *)
Theorem importWrappedKey_until_active (api : Management R) (keyID : string)
    (wrappedKey : option string) (w : World R) (k : nat) :
  let encryptionKey := mkEncryptionKey (Some keyID) None None None None None wrappedKey in
  let import :=
    invoke (CallImportWrappedKey encryptionKey)
           (EncryptionKey_ImportWrappedKey api encryptionKey) w in
  let check := importWrappedKey_check api keyID in
  fst import = None ->
  (k < 100)%nat ->
  (forall j, (j < k)%nat ->
     exists key,
       fst (EncryptionKey_Read api keyID
              (remote (wait.world_at Sleep j 20 check (snd import)))) = inl key
       /\ GetState key <> "active"%string) ->
  (exists key,
      fst (EncryptionKey_Read api keyID
             (remote (wait.world_at Sleep k 20 check (snd import)))) = inl key
      /\ GetState key = "active"%string) ->
  fst (importWrappedKey api keyID wrappedKey w) = None
  /\ calls (snd (importWrappedKey api keyID wrappedKey w))
     = calls w ++ CallImportWrappedKey encryptionKey :: polling keyID 20 k.
Proof.
  cbv zeta. intros Himport Hk Hpre (key & Hread & Hstate).
  pose proof (invoke_calls
                (CallImportWrappedKey
                   (mkEncryptionKey (Some keyID) None None None None None wrappedKey))
                (EncryptionKey_ImportWrappedKey api
                   (mkEncryptionKey (Some keyID) None None None None None wrappedKey)) w)
    as Hc.
  unfold importWrappedKey, encryptionkeymanager.importWrappedKey. cbv zeta.
  destruct (invoke _ _ w) as [o w1]. cbn [fst snd] in *. subst o.
  fold wait_Until.
  rewrite (wait_Until_done 100 20 (importWrappedKey_check api keyID) w1 k).
  - cbn [fst snd]. split; [reflexivity|].
    rewrite (polling_calls keyID 20 _ (importWrappedKey_check_calls api keyID)), Hc.
    rewrite <- app_assoc. reflexivity.
  - change (Z.to_nat 100) with 100%nat. exact Hk.
  - intros j Hj. destruct (Hpre j Hj) as (key' & Hread' & Hstate').
    rewrite importWrappedKey_check_eq, Hread'. cbn [fst].
    apply String.eqb_neq in Hstate'. rewrite Hstate'. reflexivity.
  - rewrite importWrappedKey_check_eq, Hread. cbn [fst]. rewrite Hstate. reflexivity.
Qed.

Lemma createRootKey_check_calls (api : Management R) (key : EncryptionKey) (w : World R) :
  calls (snd (createRootKey_check IsStatusNotFound api key w))
  = calls w ++ [CallRead (GetKID key)].
Proof. rewrite createRootKey_check_eq. reflexivity. Qed.

Lemma createRootKey_check_hidden (api : Management R) (key : EncryptionKey) (w : World R) :
  (exists err, fst (EncryptionKey_Read api (GetKID key) (remote w)) = inr err
               /\ IsStatusNotFound err = true) ->
  fst (createRootKey_check IsStatusNotFound api key w) = (false, None).
Proof.
  intros (err & Hread & Hnf). rewrite createRootKey_check_eq, Hread. cbn [fst].
  rewrite Hnf. reflexivity.
Qed.

(** X21.  [createRootKey] asks [Create] for a key of type
    "customer-provided-root-key" and nothing else, reads the key by the
    ID that [Create] filled in until a read succeeds, not-found reads
    counting as not yet, then fetches the wrapping key for the same ID;
    when the fetch goes well it returns the key as [Create] filled it
    with that wrapping key, having made these calls and no other. *)
Theorem createRootKey_succeeds (api : Management R) (w w1 : World R)
    (key found : EncryptionKey) (wrappingKey : WrappingKey) (k : nat) :
  let check := createRootKey_check IsStatusNotFound api key in
  let seen := snd (check (wait.world_at Sleep k 20 check w1)) in
  invoke (CallCreate newRootKey) (EncryptionKey_Create api newRootKey) w = (inl key, w1) ->
  (k < 100)%nat ->
  (forall j, (j < k)%nat ->
     exists err,
       fst (EncryptionKey_Read api (GetKID key)
              (remote (wait.world_at Sleep j 20 check w1))) = inr err
       /\ IsStatusNotFound err = true) ->
  fst (EncryptionKey_Read api (GetKID key)
         (remote (wait.world_at Sleep k 20 check w1))) = inl found ->
  fst (EncryptionKey_CreatePublicWrappingKey api (GetKID key) (remote seen))
  = inl wrappingKey ->
  fst (createRootKey api w) = inl (key, wrappingKey)
  /\ calls (snd (createRootKey api w))
     = calls w ++ CallCreate newRootKey :: polling (GetKID key) 20 k
               ++ [CallCreatePublicWrappingKey (GetKID key)]
  /\ Type_ newRootKey = Some "customer-provided-root-key"%string
  /\ KID newRootKey = None /\ WrappedKey newRootKey = None.
Proof.
  cbv zeta. intros Hcreate Hk Hpre Hread Hfetch.
  assert (Hc : calls w1 = calls w ++ [CallCreate newRootKey]).
  { rewrite <- (invoke_calls (CallCreate newRootKey)
                  (EncryptionKey_Create api newRootKey) w), Hcreate. reflexivity. }
  unfold createRootKey, encryptionkeymanager.createRootKey. cbv zeta.
  fold newRootKey. rewrite Hcreate. fold wait_Until.
  rewrite (wait_Until_done 100 20 (createRootKey_check IsStatusNotFound api key) w1 k).
  - unfold invoke at 1 2.
    destruct (EncryptionKey_CreatePublicWrappingKey api (GetKID key) _) as [res r3].
    cbn [fst] in Hfetch. subst res. cbn [fst snd calls].
    split; [reflexivity|]. split; [|repeat split].
    rewrite (polling_calls (GetKID key) 20 _ (createRootKey_check_calls api key)), Hc.
    rewrite <- !app_assoc. reflexivity.
  - change (Z.to_nat 100) with 100%nat. exact Hk.
  - intros j Hj. apply createRootKey_check_hidden. exact (Hpre j Hj).
  - rewrite createRootKey_check_eq, Hread. reflexivity.
Qed.

(** X22.  [createRootKey] fetches no wrapping key for a key it has not
    seen: when [Create] is refused that is its error and its only
    call; when a read fails with an error other than not-found it ends
    with that error after the reads made so far; and when all 100 reads
    fail with not-found it ends with the timeout of package [wait].  In
    none of these cases is the key that [Create] made taken back. *)
Theorem createRootKey_fails_without_fetch (api : Management R) (w : World R) :
  let create := invoke (CallCreate newRootKey) (EncryptionKey_Create api newRootKey) w in
  (forall err, fst create = inr err ->
     createRootKey api w = (inr err, snd create)
     /\ calls (snd create) = calls w ++ [CallCreate newRootKey])
  /\ (forall key k err,
        let check := createRootKey_check IsStatusNotFound api key in
        fst create = inl key -> (k < 100)%nat ->
        (forall j, (j < k)%nat ->
           exists err',
             fst (EncryptionKey_Read api (GetKID key)
                    (remote (wait.world_at Sleep j 20 check (snd create)))) = inr err'
             /\ IsStatusNotFound err' = true) ->
        fst (EncryptionKey_Read api (GetKID key)
               (remote (wait.world_at Sleep k 20 check (snd create)))) = inr err ->
        IsStatusNotFound err = false ->
        fst (createRootKey api w) = inr err
        /\ calls (snd (createRootKey api w))
           = calls w ++ CallCreate newRootKey :: polling (GetKID key) 20 k)
  /\ (forall key,
        let check := createRootKey_check IsStatusNotFound api key in
        fst create = inl key ->
        (forall j, (j < 100)%nat ->
           exists err',
             fst (EncryptionKey_Read api (GetKID key)
                    (remote (wait.world_at Sleep j 20 check (snd create)))) = inr err'
             /\ IsStatusNotFound err' = true) ->
        fst (createRootKey api w) = inr ErrTimeout
        /\ calls (snd (createRootKey api w))
           = calls w ++ CallCreate newRootKey :: polling (GetKID key) 20 99).
Proof.
  cbv zeta.
  pose proof (invoke_calls (CallCreate newRootKey)
                (EncryptionKey_Create api newRootKey) w) as Hc.
  unfold createRootKey, encryptionkeymanager.createRootKey. cbv zeta. fold newRootKey.
  destruct (invoke (CallCreate newRootKey) (EncryptionKey_Create api newRootKey) w)
    as [res w1]. cbn [fst snd] in *.
  split; [|split].
  - intros err ->. split; [reflexivity | exact Hc].
  - intros key k err -> Hk Hpre Hread Hnf.
    rewrite (wait_Until_abort elapse 100 20
               (createRootKey_check IsStatusNotFound api key) w1 k false err).
    + cbn [fst snd]. split; [reflexivity|].
      fold Sleep.
      rewrite (polling_calls (GetKID key) 20 _ (createRootKey_check_calls api key)), Hc.
      rewrite <- app_assoc. reflexivity.
    + change (Z.to_nat 100) with 100%nat. exact Hk.
    + intros j Hj. apply createRootKey_check_hidden. exact (Hpre j Hj).
    + fold Sleep. rewrite createRootKey_check_eq, Hread. cbn [fst]. rewrite Hnf.
      reflexivity.
  - intros key -> Hall. fold wait_Until. change 100 with (Z.of_nat 100).
    rewrite (wait_Until_spent 99 20 (createRootKey_check IsStatusNotFound api key) w1).
    + cbn [fst snd]. split; [reflexivity|].
      rewrite (polling_calls (GetKID key) 20 _ (createRootKey_check_calls api key)), Hc.
      rewrite <- app_assoc. reflexivity.
    + intros j Hj. apply createRootKey_check_hidden. apply Hall. lia.
Qed.

End FlowFacts.

(** ** The further facts at work on the scripted tenant *)

Lemma Diagnostic_eqb_eq (a b : internal_error.Diagnostic) :
  internal_error.Diagnostic_eqb a b = true <-> a = b.
Proof.
  unfold internal_error.Diagnostic_eqb. destruct a as [s1 m1 d1], b as [s2 m2 d2].
  cbn. rewrite !andb_true_iff, !String.eqb_eq. split.
  - intros [[Hs ->] ->]. destruct s1, s2; try discriminate; reflexivity.
  - intros H. inversion H; subst. destruct s2; repeat split.
Qed.

(** [AddError_once] is an [AddError] as the facts on
    [DiagnosticsFromError] ask for one. *)
Lemma AddError_once_holds (summary detail : string)
    (diags : internal_error.Diagnostics) (x : internal_error.Diagnostic) :
  In x (internal_error.AddError_once summary detail diags)
  <-> x = internal_error.ErrorDiagnostic summary detail \/ In x diags.
Proof.
  unfold internal_error.AddError_once.
  destruct (existsb _ diags) eqn:Hex.
  - split; [auto|]. intros [-> | Hin]; [|exact Hin].
    apply existsb_exists in Hex. destruct Hex as (y & Hy & Heq).
    apply Diagnostic_eqb_eq in Heq. subst y. exact Hy.
  - rewrite in_app_iff. cbn [In]. split.
    + intros [Hin | [<- | []]]; auto.
    + intros [-> | Hin]; auto.
Qed.


(** An empty multierror, an error with a text, a nil pointer. *)
Lemma DiagnosticsFromError_empty_witness :
  Scenario.FromError (Some (internal_error.MultiError [])) = Some []
  /\ Scenario.FromError (Some (internal_error.OtherError "a")) <> Some []
  /\ Scenario.FromError (Some internal_error.NilMultiError) = None.
Proof.
  split; [|split].
  - apply (proj1 (DiagnosticsFromError_empty internal_error.count_format
                    internal_error.AddError_once AddError_once_holds _)).
    right. reflexivity.
  - intros Hempty.
    apply (proj1 (DiagnosticsFromError_empty internal_error.count_format
                    internal_error.AddError_once AddError_once_holds _)) in Hempty.
    destruct Hempty as [H | H]; discriminate H.
  - exact (proj2 (DiagnosticsFromError_empty internal_error.count_format
                    internal_error.AddError_once AddError_once_holds None)).
Defined.


(** A refused rekey. *)

Lemma update_rekey_refused_witness :
  encryptionkeymanager.rekey_due Scripted.early_rekey = true
  /\ Scripted.update 1 Scripted.api Scripted.early_rekey Scripted.tenant_no_rekey
     = (Some ([Scripted.forbidden], Scripted.early_rekey),
        mkWorld (remote Scripted.tenant_no_rekey) [CallRekey]).
Proof.
  split; [reflexivity|].
  exact (proj1 (update_rekey_refused Scripted.idle Scripted.IsStatusNotFound
                  Scripted.getKeyByTypeAndState Scripted.flattenCustomerProvidedRootKey
                  Scripted.flattenEncryptionKeys Scripted.value_String
                  1%nat Scripted.api Scripted.early_rekey Scripted.tenant_no_rekey
                  (mkWorld (remote Scripted.tenant_no_rekey) [CallRekey])
                  Scripted.forbidden eq_refl eq_refl)).
Defined.

(** A new resource with a rotation ID is not rekeyed. *)
Lemma update_rekeys_when_due_witness :
  encryptionkeymanager.count steps.is_rekey
    (calls (snd (Scripted.update 2 Scripted.api Scenario.fresh_rotating
                   (Scripted.tenant [inl Scenario.pending_key])))) = 0.
Proof.
  exact (proj1 (update_rekeys_when_due Scripted.idle Scripted.IsStatusNotFound
                  Scripted.getKeyByTypeAndState Scripted.flattenCustomerProvidedRootKey
                  Scripted.flattenEncryptionKeys Scripted.value_String
                  2%nat Scripted.api Scenario.fresh_rotating
                  (Scripted.tenant [inl Scenario.pending_key]))).
Defined.

(** An import deletes nothing. *)
Lemma update_deletes_only_removed_block_witness :
  steps.block_present Scenario.importing
  /\ encryptionkeymanager.count steps.is_delete
       (calls (snd (Scripted.update 2 Scripted.api Scenario.importing
                      (Scripted.tenant [inl Scenario.active_key])))) = 0.
Proof.
  assert (Hblock : steps.block_present Scenario.importing).
  { exists [Some "abc"%string]. split; [reflexivity | discriminate]. }
  split; [exact Hblock|].
  exact (update_deletes_only_removed_block Scripted.idle Scripted.IsStatusNotFound
           Scripted.getKeyByTypeAndState Scripted.flattenCustomerProvidedRootKey
           Scripted.flattenEncryptionKeys Scripted.value_String
           2%nat Scripted.api Scenario.importing
           (Scripted.tenant [inl Scenario.active_key]) (or_intror (or_introl Hblock))).
Defined.

(** Taking the block out creates nothing. *)
Lemma update_creates_only_when_due_witness :
  let run := Scripted.update 2 Scripted.api Scenario.removed
               (Scripted.tenant [inl Scenario.destroyed_key]) in
  steps.block_absent Scenario.removed = true
  /\ encryptionkeymanager.count steps.is_create (calls (snd run)) = 0
  /\ encryptionkeymanager.count encryptionkeymanager.is_wrapping_fetch (calls (snd run)) = 0.
Proof.
  intros run. split; [reflexivity|].
  exact (update_creates_only_when_due Scripted.idle Scripted.IsStatusNotFound
           Scripted.getKeyByTypeAndState Scripted.flattenCustomerProvidedRootKey
           Scripted.flattenEncryptionKeys Scripted.value_String
           2%nat Scripted.api Scenario.removed
           (Scripted.tenant [inl Scenario.destroyed_key]) (or_intror (or_introl eq_refl))).
Defined.

(** An active key is not imported again. *)
Lemma update_imports_only_when_due_witness :
  Get_customer_provided_root_key_0 state Scenario.activated <> "pre-activation"%string
  /\ encryptionkeymanager.count encryptionkeymanager.is_import
       (calls (snd (Scripted.update 2 Scripted.api Scenario.activated (Scripted.tenant []))))
     = 0.
Proof.
  assert (Hstate : Get_customer_provided_root_key_0 state Scenario.activated
                   <> "pre-activation"%string) by discriminate.
  split; [exact Hstate|].
  exact (update_imports_only_when_due Scripted.idle Scripted.IsStatusNotFound
           Scripted.getKeyByTypeAndState Scripted.flattenCustomerProvidedRootKey
           Scripted.flattenEncryptionKeys Scripted.value_String
           2%nat Scripted.api Scenario.activated (Scripted.tenant [])
           (or_intror (or_intror (or_intror (or_intror (or_introl Hstate)))))).
Defined.

(** An unchanged block. *)
Lemma update_untouched_is_read_witness :
  let w := Scripted.tenant [] in
  steps.root_key_touched Scripted.early_unchanged = false
  /\ Scripted.update 1 Scripted.api Scripted.early_unchanged w
     = Scripted.read 1 Scripted.api Scripted.early_unchanged w
  /\ calls (snd (Scripted.update 1 Scripted.api Scripted.early_unchanged w))
     = [CallList 0 5].
Proof.
  intros w. split; [reflexivity|].
  assert (Hrun := update_untouched_is_read Scripted.idle Scripted.IsStatusNotFound
                    Scripted.getKeyByTypeAndState Scripted.flattenCustomerProvidedRootKey
                    Scripted.flattenEncryptionKeys Scripted.value_String
                    1%nat Scripted.api Scripted.early_unchanged w w eq_refl
                    (or_introl (conj eq_refl eq_refl))).
  split; [exact Hrun|]. unfold Scripted.update. rewrite Hrun. reflexivity.
Defined.

(** A block taken out of the configuration: the key is removed, and the
    read that follows sets no block although a root key is listed. *)
Lemma update_removes_key_witness :
  let w := Scenario.tenant_with [inl Scenario.destroyed_key]
             [Scripted.key "kid-9" Scripted.root "active"] in
  let run := Scripted.update 1 Scripted.api Scenario.removed w in
  steps.root_key_touched Scenario.removed = true
  /\ steps.block_absent Scenario.removed = true
  /\ Get_customer_provided_root_key_count Scenario.removed = 0
  /\ Get_customer_provided_root_key_0 key_id Scenario.removed = "kid-1"%string
  /\ calls (snd run) = [CallDelete "kid-1"; CallRead "kid-1"; CallList 0 5]
  /\ (exists data', fst run = Some ([], data')
                    /\ set_customer_provided_root_key data' = None).
Proof.
  intros w run. do 4 (split; [reflexivity|]).
  assert (Hne : Get_customer_provided_root_key_0 key_id Scenario.removed <> EmptyString)
    by discriminate.
  assert (Hrun := proj1 (update_removes_key Scripted.idle Scripted.IsStatusNotFound
                    Scripted.getKeyByTypeAndState Scripted.flattenCustomerProvidedRootKey
                    Scripted.flattenEncryptionKeys Scripted.value_String
                    1%nat Scripted.api Scenario.removed w w eq_refl eq_refl
                    (or_introl (conj eq_refl eq_refl))) Hne).
  unfold run, Scripted.update. rewrite Hrun. split; [reflexivity|].
  eexists. split; reflexivity.
Defined.

(** A wrapped key added to a key in progress: it is imported. *)
Lemma update_imports_wrapped_key_witness :
  let w := Scripted.tenant [inl Scenario.pending_key; inl Scenario.active_key] in
  let run := Scripted.update 1 Scripted.api Scenario.importing w in
  calls (snd run)
  = [CallImportWrappedKey
       (mkEncryptionKey (Some "kid-1"%string) None None None None None (Some "abc"%string));
     CallRead "kid-1"; CallSleep 20; CallRead "kid-1"; CallList 0 5].
Proof.
  intros w run.
  assert (Hblock : steps.block_present Scenario.importing).
  { exists [Some "abc"%string]. split; [reflexivity | discriminate]. }
  assert (Hrun := update_imports_wrapped_key Scripted.idle Scripted.IsStatusNotFound
                    Scripted.getKeyByTypeAndState Scripted.flattenCustomerProvidedRootKey
                    Scripted.flattenEncryptionKeys Scripted.value_String
                    1%nat Scripted.api Scenario.importing w w "abc"%string
                    eq_refl Hblock eq_refl).
  unfold run, Scripted.update. rewrite Hrun.
  - reflexivity.
  - discriminate.
  - reflexivity.
  - discriminate.
  - discriminate.
  - left. split; reflexivity.
Defined.

(** A wrapped key put back for an active key: nothing but the read. *)
Lemma update_passes_over_wrapped_key_witness :
  let w := Scripted.tenant [] in
  let run := Scripted.update 1 Scripted.api Scenario.activated w in
  calls (snd run) = [CallList 0 5] /\ fst run = Some ([], Scenario.activated).
Proof.
  intros w run.
  assert (Hblock : steps.block_present Scenario.activated).
  { exists [Some "abc"%string]. split; [reflexivity | discriminate]. }
  assert (Hrun := update_passes_over_wrapped_key Scripted.idle Scripted.IsStatusNotFound
                    Scripted.getKeyByTypeAndState Scripted.flattenCustomerProvidedRootKey
                    Scripted.flattenEncryptionKeys Scripted.value_String
                    1%nat Scripted.api Scenario.activated w w "abc"%string
                    Hblock eq_refl).
  unfold run, Scripted.update. rewrite Hrun.
  - split; reflexivity.
  - discriminate.
  - discriminate.
  - discriminate.
  - discriminate.
  - left. split; reflexivity.
Defined.

(** A new resource with an empty block: a root key is created. *)
Lemma update_creates_root_key_witness :
  let w := Scripted.tenant [inr Scripted.notFound; inl Scenario.pending_key] in
  let run := Scripted.update 1 Scripted.api Scenario.fresh w in
  calls (snd run)
  = [CallCreate encryptionkeymanager.newRootKey; CallRead "kid-1"; CallSleep 20;
     CallRead "kid-1"; CallCreatePublicWrappingKey "kid-1"; CallList 0 5].
Proof.
  intros w run.
  assert (Hblock : steps.block_present Scenario.fresh).
  { exists [None]. split; [reflexivity | discriminate]. }
  assert (Hrun := update_creates_root_key Scripted.idle Scripted.IsStatusNotFound
                    Scripted.getKeyByTypeAndState Scripted.flattenCustomerProvidedRootKey
                    Scripted.flattenEncryptionKeys Scripted.value_String
                    1%nat Scripted.api Scenario.fresh w w
                    eq_refl Hblock eq_refl eq_refl (or_introl (conj eq_refl eq_refl))).
  unfold run, Scripted.update. rewrite Hrun. reflexivity.
Defined.

Lemma all_below_holds (n : nat) (test : nat -> bool) :
  Scenario.all_below n test = true -> forall j, (j < n)%nat -> test j = true.
Proof.
  unfold Scenario.all_below. intros Hall j Hj.
  apply (proj1 (forallb_forall test (seq 0 n)) Hall). apply in_seq. lia.
Qed.

(** A read of a tenant with keys. *)
Lemma read_writes_computed_only_witness :
  let w := Scripted.tenant_listing Scenario.seven_keys in
  exists diags data' w',
    Scripted.read 2 Scripted.api Scripted.pending w = (Some (diags, data'), w')
    /\ steps.same_inputs Scripted.pending data'
    /\ diags = []
    /\ encryption_keys data' = Scripted.flattenEncryptionKeys Scenario.seven_keys.
Proof.
  intros w.
  destruct (Scripted.read 2 Scripted.api Scripted.pending w) as [[[diags data']|] w'] eqn:Hrun;
    [|exfalso; vm_compute in Hrun; discriminate Hrun].
  exists diags, data', w'. split; [reflexivity|].
  destruct (read_writes_computed_only Scripted.getKeyByTypeAndState
              Scripted.flattenCustomerProvidedRootKey Scripted.flattenEncryptionKeys
              2%nat Scripted.api Scripted.pending data' diags w w' Hrun)
    as (Hsame & _ & Hkeys & _).
  split; [exact Hsame|]. apply (Hkeys Scenario.seven_keys). reflexivity.
Defined.

(** An update that creates a key. *)
Lemma update_writes_computed_only_witness :
  let w := Scripted.tenant [inl Scenario.pending_key] in
  exists diags data' w',
    Scripted.update 1 Scripted.api Scenario.fresh w = (Some (diags, data'), w')
    /\ IsNewResource data' = true
    /\ raw_customer_provided_root_key data' = Some [None]
    /\ Get_customer_provided_root_key_0 key_id data' = "kid-1"%string.
Proof.
  intros w.
  destruct (Scripted.update 1 Scripted.api Scenario.fresh w) as [[[diags data']|] w'] eqn:Hrun;
    [|exfalso; vm_compute in Hrun; discriminate Hrun].
  exists diags, data', w'. split; [reflexivity|].
  destruct (update_writes_computed_only Scripted.idle Scripted.IsStatusNotFound
              Scripted.getKeyByTypeAndState Scripted.flattenCustomerProvidedRootKey
              Scripted.flattenEncryptionKeys Scripted.value_String
              1%nat Scripted.api Scenario.fresh data' diags w w' Hrun)
    as (_ & Hnew & _ & _ & _ & _ & Hraw).
  split; [exact Hnew|]. split; [exact Hraw|].
  vm_compute in Hrun. inversion Hrun. reflexivity.
Defined.

(** A create whose root key cannot be created still has its ID. *)
Lemma create_sets_id_witness :
  let w := Scripted.tenant_no_wrapping [inl Scenario.pending_key] in
  exists diags data' w',
    Scenario.create "new-id" 1 Scenario.fresh w = (Some (diags, data'), w')
    /\ diags = [Scripted.forbidden]
    /\ Id data' = "new-id"%string.
Proof.
  intros w.
  destruct (Scenario.create "new-id" 1 Scenario.fresh w) as [[[diags data']|] w'] eqn:Hrun;
    [|exfalso; vm_compute in Hrun; discriminate Hrun].
  exists diags, data', w'. split; [reflexivity|].
  destruct (create_sets_id Scripted.idle Scripted.IsStatusNotFound
              Scripted.getKeyByTypeAndState Scripted.flattenCustomerProvidedRootKey
              Scripted.flattenEncryptionKeys Scripted.value_String
              "new-id"%string 1%nat Scripted.api Scenario.fresh data' diags w w' Hrun)
    as (Hid & _).
  split; [|exact Hid]. vm_compute in Hrun. inversion Hrun. reflexivity.
Defined.

(** Seven keys are read in two pages. *)
Lemma read_lists_pages_in_order_witness :
  let w := Scripted.tenant_listing Scenario.seven_keys in
  (exists n, (n <= 3)%nat
     /\ calls (snd (Scripted.read 3 Scripted.api Scripted.pending w))
        = calls w ++ steps.listing 0 n
     /\ (fst (Scripted.read 3 Scripted.api Scripted.pending w) <> None -> n <> O))
  /\ calls (snd (Scripted.read 3 Scripted.api Scripted.pending w))
     = [CallList 0 5; CallList 1 5].
Proof.
  intros w. split; [|reflexivity].
  assert (Hfuel : Z.of_nat 3 <= 2 ^ 63) by (intros H; discriminate H).
  exact (read_lists_pages_in_order Scripted.getKeyByTypeAndState
           Scripted.flattenCustomerProvidedRootKey Scripted.flattenEncryptionKeys
           3%nat Scripted.api Scripted.pending w Hfuel).
Defined.

(** A key that is destroyed at the second read. *)
Lemma removeKey_until_destroyed_witness :
  let w := Scripted.tenant [inl Scenario.active_key; inl Scenario.destroyed_key] in
  fst (Scenario.removeKey "kid-1" w) = None
  /\ calls (snd (Scenario.removeKey "kid-1" w))
     = [CallDelete "kid-1"; CallRead "kid-1"; CallSleep 20; CallRead "kid-1"].
Proof.
  intros w.
  destruct (removeKey_until_destroyed Scripted.idle Scripted.api "kid-1" w) as [_ Hok].
  apply (Hok 1%nat eq_refl).
  - lia.
  - intros j Hj. destruct j as [|j]; [|lia].
    exists Scenario.active_key. split; [reflexivity | discriminate].
  - exists Scenario.destroyed_key. split; reflexivity.
Defined.

(** A key that stays active through all the reads. *)
Lemma removeKey_times_out_witness :
  let w := Scripted.tenant (repeat (inl Scenario.active_key) 100) in
  fst (Scenario.removeKey "kid-1" w) = Some ErrTimeout
  /\ encryptionkeymanager.count encryptionkeymanager.is_read
       (calls (snd (Scenario.removeKey "kid-1" w))) = 100
  /\ encryptionkeymanager.count steps.is_delete
       (calls (snd (Scenario.removeKey "kid-1" w))) = 1.
Proof.
  intros w.
  pose (start := snd (invoke (CallDelete "kid-1")
                        (EncryptionKey_Delete Scripted.api "kid-1") w)).
  pose (test := fun j : nat =>
          match fst (EncryptionKey_Read Scripted.api "kid-1"
                       (remote (wait.world_at Scenario.Sleep j 20
                                  (encryptionkeymanager.removeKey_check Scripted.api "kid-1")
                                  start))) with
          | inl key => negb (String.eqb (GetState key) "destroyed")
          | inr _ => false
          end).
  assert (Hall : Scenario.all_below 100 test = true) by (vm_compute; reflexivity).
  destruct (removeKey_times_out Scripted.idle Scripted.api "kid-1" w eq_refl)
    as [Hres Hcalls].
  - intros j Hj. pose proof (all_below_holds 100 test Hall j Hj) as Hj'.
    unfold test, start, Scenario.Sleep in Hj'.
    destruct (fst (EncryptionKey_Read Scripted.api "kid-1" _)) as [key|err];
      [|discriminate Hj'].
    exists key. split; [reflexivity|].
    apply String.eqb_neq. apply negb_true_iff. exact Hj'.
  - split; [exact Hres|]. unfold Scenario.removeKey. rewrite Hcalls.
    split; vm_compute; reflexivity.
Defined.

(** A key that is active at the second read. *)
Lemma importWrappedKey_until_active_witness :
  let w := Scripted.tenant [inl Scenario.pending_key; inl Scenario.active_key] in
  fst (Scenario.importWrappedKey "kid-1" (Some "abc"%string) w) = None
  /\ calls (snd (Scenario.importWrappedKey "kid-1" (Some "abc"%string) w))
     = [CallImportWrappedKey
          (mkEncryptionKey (Some "kid-1"%string) None None None None None (Some "abc"%string));
        CallRead "kid-1"; CallSleep 20; CallRead "kid-1"].
Proof.
  intros w.
  apply (importWrappedKey_until_active Scripted.idle Scripted.api "kid-1"
           (Some "abc"%string) w 1%nat eq_refl).
  - lia.
  - intros j Hj. destruct j as [|j]; [|lia].
    exists Scenario.pending_key. split; [reflexivity | discriminate].
  - exists Scenario.active_key. split; reflexivity.
Defined.

(** A key that shows at the second read. *)
Lemma createRootKey_succeeds_witness :
  let w := Scripted.tenant [inr Scripted.notFound; inl Scenario.pending_key] in
  fst (Scenario.createRootKey w) = inl (Scenario.pending_key, Scripted.pem)
  /\ calls (snd (Scenario.createRootKey w))
     = [CallCreate encryptionkeymanager.newRootKey; CallRead "kid-1"; CallSleep 20;
        CallRead "kid-1"; CallCreatePublicWrappingKey "kid-1"].
Proof.
  intros w.
  destruct (createRootKey_succeeds Scripted.idle Scripted.IsStatusNotFound Scripted.api
              w (snd (invoke (CallCreate encryptionkeymanager.newRootKey)
                        (EncryptionKey_Create Scripted.api encryptionkeymanager.newRootKey) w))
              Scenario.pending_key Scenario.pending_key Scripted.pem 1%nat eq_refl)
    as (Hres & Hcalls & _).
  - lia.
  - intros j Hj. destruct j as [|j]; [|lia].
    exists Scripted.notFound. split; reflexivity.
  - reflexivity.
  - reflexivity.
  - split; [exact Hres | exact Hcalls].
Defined.

(** A read that is refused: no wrapping key is fetched. *)
Lemma createRootKey_fails_without_fetch_witness :
  let w := Scripted.tenant [inr Scripted.notFound; inr Scripted.forbidden] in
  fst (Scenario.createRootKey w) = inr Scripted.forbidden
  /\ calls (snd (Scenario.createRootKey w))
     = [CallCreate encryptionkeymanager.newRootKey; CallRead "kid-1"; CallSleep 20;
        CallRead "kid-1"].
Proof.
  intros w.
  destruct (createRootKey_fails_without_fetch Scripted.idle Scripted.IsStatusNotFound
              Scripted.api w) as (_ & Hread & _).
  apply (Hread Scenario.pending_key 1%nat Scripted.forbidden eq_refl).
  - lia.
  - intros j Hj. destruct j as [|j]; [|lia].
    exists Scripted.notFound. split; reflexivity.
  - reflexivity.
  - reflexivity.
Defined.
